(** * Pipeline compilation of melange: [pkg/build/compile.go]

    A shallow embedding of the pipeline compiler.  Go structs become records,
    Go maps become [gmap string _], slices become lists, pointers that may be
    nil become [option], and every function that mutates its receiver or an
    argument returns the new value of what it mutated. *)

From stdpp Require Import base option list strings gmap fin_maps.

Set Warnings "-register-all,-at-level-200-changed,-notation-incompatible-prefix".

Open Scope string_scope.
Open Scope list_scope.

(** ** Errors and results *)

(** The [fmt.Errorf("<context>: %w", err)] wrappers of compile.go, one
    constructor for each format string, carrying the formatted arguments. *)
Inductive context :=
  | CompilingMainPipelines                 (* "compiling main pipelines: %w" *)
  | MutatingSubpackageIf                   (* "mutating subpackage if: %w" *)
  | CompilingSubpackage (name : string)    (* "compiling subpackage %q: %w" *)
  | CompilingSubpackageTests (name : string) (* "compiling subpackage %q tests: %w" *)
  | CompilingPipelineAt (i : nat)          (* "compiling Pipeline[%d]: %w" *)
  | GatheringDepsAt (i : nat)              (* "gathering deps for Pipeline[%d]: %w" *)
  | UnableToLoadPipeline                   (* "unable to load pipeline: %w" *)
  | UnableToParsePipeline (uses : string)  (* "unable to parse pipeline %q: %w" *)
  | UnableToValidateWith                   (* "unable to validate with: %w" *)
  | MutatingWith                           (* "mutating with: %w" *)
  | MutatingNeeds                          (* "mutating needs: %w" *)
  | MutatingWorkdir                        (* "mutating workdir: %w" *)
  | MutatingRuns                           (* "mutating runs: %w" *)
  | MutatingIf                             (* "mutating if: %w" *)
  | ComputingExternalRefs                  (* "computing external refs: %w" *)
  | EvaluatingConditional (text : string). (* "evaluating conditional %q: %w" *)

Inductive error :=
  | Foreign (msg : string)          (* an error made outside compile.go *)
  | CouldNotFindUses (uses : string) (* "could not find 'uses' pipeline %q" *)
  | Wrap (ctx : context) (e : error).

(** What a collaborator returns: a value or an error. *)
Inductive result (A : Type) :=
  | Ok (a : A)
  | Err (e : error).
Arguments Ok {A} a.
Arguments Err {A} e.

(** What a function of compile.go does: it returns normally, returns an error,
    panics on a nil pointer, or (in the model only) runs out of fuel. *)
Inductive outcome (A : Type) :=
  | Done (a : A)
  | Failed (e : error)
  | Panic
  | OutOfFuel.
Arguments Done {A} a.
Arguments Failed {A} e.
Arguments Panic {A}.
Arguments OutOfFuel {A}.

Definition bind {A B} (m : outcome A) (k : A -> outcome B) : outcome B :=
  match m with
  | Done a => k a
  | Failed e => Failed e
  | Panic => Panic
  | OutOfFuel => OutOfFuel
  end.

(** [if err != nil { return fmt.Errorf("<ctx>: %w", err) }] after a call into
    a collaborator. *)
Definition try {A} (ctx : context) (r : result A) : outcome A :=
  match r with
  | Ok a => Done a
  | Err e => Failed (Wrap ctx e)
  end.

(** The same after a call to a function of this file. *)
Definition wrap {A} (ctx : context) (m : outcome A) : outcome A :=
  match m with
  | Failed e => Failed (Wrap ctx e)
  | other => other
  end.

(** [if err != nil { return err }] *)
Definition pass {A} (r : result A) : outcome A :=
  match r with
  | Ok a => Done a
  | Err e => Failed e
  end.

Declare Scope outcome_scope.
Delimit Scope outcome_scope with outcome.
Notation "'let*' x ':=' m 'in' k" := (bind m (fun x => k))
  (at level 200, x pattern, m at level 100, k at level 200,
   right associativity) : outcome_scope.
Open Scope outcome_scope.

(** A [for i := range xs] loop whose body works on [&xs[i]] and on some state
    [St] held outside the slice: element [i] is replaced by what the body left
    in it.  The loop stops at the first iteration that does not return
    normally. *)
Fixpoint rangeIdx {St A} (body : nat -> St -> A -> outcome (St * A))
    (i : nat) (s : St) (xs : list A) : outcome (St * list A) :=
  match xs with
  | [] => Done (s, [])
  | x :: rest =>
      let* (s1, x') := body i s x in
      let* (s2, rest') := rangeIdx body (S i) s1 rest in
      Done (s2, x' :: rest')
  end.

(** A loop over a slice of strings rewritten in place by a collaborator. *)
Fixpoint rangeStrings (f : string -> result string) (ctx : context)
    (xs : list string) : outcome (list string) :=
  match xs with
  | [] => Done []
  | x :: rest =>
      let* x' := try ctx (f x) in
      let* rest' := rangeStrings f ctx rest in
      Done (x' :: rest')
  end.

(** ** Data model *)

Module purl.

(** [purl.PackageURL] *)
Record PackageURL := mkPackageURL {
  Type_ : string;
  Namespace : string;
  Name : string;
  Version : string;
  Qualifiers : list (string * string);
  Subpath : string
}.

End purl.

Module config.

(** [config.Input]: one documented input of a pipeline. *)
Module Input.
Record t := mk {
  Description : string;
  Default : string;
  Required : bool
}.
End Input.

(** [config.Needs] *)
Module Needs.
Record t := mk {
  Packages : list string
}.
End Needs.

(** [config.Pipeline], the fields compile.go reads or writes.  [With] and
    [Inputs] are Go maps (a nil map is the empty map), [Needs] is a pointer,
    [Pipeline] is the slice of nested steps. *)
Module Pipeline.
Inductive t := mk {
  Name : string;
  Uses : string;
  With : gmap string string;
  Runs : string;
  Pipeline : list t;
  Inputs : gmap string Input.t;
  Needs : option Needs.t;
  If : string;
  WorkDir : string
}.

Definition set_With (w : gmap string string) (p : t) : t :=
  mk (Name p) (Uses p) w (Runs p) (Pipeline p) (Inputs p) (Needs p) (If p) (WorkDir p).
Definition set_Runs (r : string) (p : t) : t :=
  mk (Name p) (Uses p) (With p) r (Pipeline p) (Inputs p) (Needs p) (If p) (WorkDir p).
Definition set_Pipeline (ps : list t) (p : t) : t :=
  mk (Name p) (Uses p) (With p) (Runs p) ps (Inputs p) (Needs p) (If p) (WorkDir p).
Definition set_Inputs (i : gmap string Input.t) (p : t) : t :=
  mk (Name p) (Uses p) (With p) (Runs p) (Pipeline p) i (Needs p) (If p) (WorkDir p).
Definition set_Needs (n : option Needs.t) (p : t) : t :=
  mk (Name p) (Uses p) (With p) (Runs p) (Pipeline p) (Inputs p) n (If p) (WorkDir p).
Definition set_If (c : string) (p : t) : t :=
  mk (Name p) (Uses p) (With p) (Runs p) (Pipeline p) (Inputs p) (Needs p) c (WorkDir p).
Definition set_WorkDir (d : string) (p : t) : t :=
  mk (Name p) (Uses p) (With p) (Runs p) (Pipeline p) (Inputs p) (Needs p) (If p) d.
End Pipeline.

(** The [Contents] of an image configuration: the packages to install. *)
Module ImageContents.
Record t := mk {
  Packages : list string
}.
End ImageContents.

(** The type of the [Environment] fields. *)
Module ImageConfiguration.
Record t := mk {
  Contents : ImageContents.t
}.

(** [e.Contents.Packages] *)
Definition Packages (e : t) : list string := ImageContents.Packages (Contents e).

(** [e.Contents.Packages = append(e.Contents.Packages, pkgs...)] *)
Definition appendPackages (pkgs : list string) (e : t) : t :=
  mk (ImageContents.mk (Packages e ++ pkgs)).
End ImageConfiguration.

(** [config.Test] *)
Module Test.
Record t := mk {
  Environment : ImageConfiguration.t;
  Pipeline : list Pipeline.t
}.
End Test.

(** [config.Package] *)
Module Package.
Record t := mk {
  Name : string
}.
End Package.

(** [config.Subpackage]; [Test] is a pointer. *)
Module Subpackage.
Record t := mk {
  Name : string;
  If : string;
  Pipeline : list Pipeline.t;
  Test : option Test.t
}.
End Subpackage.

(** [config.Configuration]; [Test] is a pointer. *)
Module Configuration.
Record t := mk {
  Package : Package.t;
  Environment : ImageConfiguration.t;
  Pipeline : list Pipeline.t;
  Subpackages : list Subpackage.t;
  Test : option Test.t
}.

(** What is stored in [cfg.Test.Environment.Contents.Packages], in
    [cfg.Subpackages[i].Test.Environment.Contents.Packages] and in
    [cfg.Subpackages[i].If]. *)
Definition testPackages (cfg : t) : option (list string) :=
  (fun tst => ImageConfiguration.Packages (Test.Environment tst)) <$> Test cfg.
Definition subpackageTestPackages (cfg : t) : list (option (list string)) :=
  (fun sp => (fun tst => ImageConfiguration.Packages (Test.Environment tst))
               <$> Subpackage.Test sp) <$> Subpackages cfg.
Definition subpackageIfs (cfg : t) : list string :=
  Subpackage.If <$> Subpackages cfg.
End Configuration.

End config.

Import config.

(** [SubstitutionMap] *)
Module SubstitutionMap.
Record t := mk {
  Substitutions : gmap string string
}.
End SubstitutionMap.

(** [Compiled]: the accumulator of one compilation. *)
Module Compiled.
Record t := mk {
  PipelineDirs : list string;
  Needs : list string;
  ExternalRefs : list purl.PackageURL
}.

Definition fresh (dirs : list string) : t := mk dirs [] [].
Definition appendNeeds (pkgs : list string) (c : t) : t :=
  mk (PipelineDirs c) (Needs c ++ pkgs) (ExternalRefs c).
Definition appendExternalRefs (refs : list purl.PackageURL) (c : t) : t :=
  mk (PipelineDirs c) (Needs c) (ExternalRefs c ++ refs).
End Compiled.

(** What a call adds to an accumulator: package names and references. *)
Definition gain : Type := list string * list purl.PackageURL.

Definition extend (d : gain) (c : Compiled.t) : Compiled.t :=
  Compiled.mk (Compiled.PipelineDirs c) (Compiled.Needs c ++ d.1)
              (Compiled.ExternalRefs c ++ d.2).

Definition gains (d1 d2 : gain) : gain := (d1.1 ++ d2.1, d1.2 ++ d2.2).

(** [f] reads nothing of its accumulator but the lookup directories and only
    appends to it. *)
Definition framed {A B} (f : Compiled.t -> A -> outcome (Compiled.t * B)) : Prop :=
  forall c x c' y, f c x = Done (c', y) ->
  exists d, forall c0, Compiled.PipelineDirs c0 = Compiled.PipelineDirs c ->
                       f c0 x = Done (extend d c0, y).

(** The receiver of [(t *Test) Compile]. *)
Module Test.
Record t := mk {
  Configuration : Configuration.t;
  Arch : string;
  PipelineDirs : list string;
  Package : string
}.
End Test.

(** The receiver of [(b *Build) Compile]. *)
Module Build.
Record t := mk {
  Configuration : Configuration.t;
  Arch : string;
  PipelineDirs : list string;
  EnabledBuildOptions : list string;
  externalRefs : list purl.PackageURL
}.
End Build.

(** ** Collaborators

    What compile.go calls and does not define: the file system, the embedded
    catalog [f], the YAML decoder, the substitution routines of [util] and of
    [SubstitutionMap], [validateWith], [computeExternalRefs], [cond.Evaluate]
    and [(b *Build) BuildFlavor].  They are parameters of the development.

    [yaml_Unmarshal data p] is the step that [yaml.Unmarshal(data, pipeline)]
    leaves in [*pipeline], which held [p].  [validateWith] receives a Go map
    and may write into it, so it returns the map as the call left it next to
    its result. *)
Class Collaborators := {
  os_ReadFile : string -> result string;
  filepath_Join : string -> string -> string;
  f_ReadFile : string -> result string;
  yaml_Unmarshal : string -> Pipeline.t -> result Pipeline.t;
  validateWith : gmap string string -> gmap string Input.t ->
                 gmap string string * result (gmap string string);
  MutateWith : SubstitutionMap.t -> gmap string string -> result (gmap string string);
  MutateStringFromMap : gmap string string -> string -> result string;
  MutateAndQuoteStringFromMap : gmap string string -> string -> result string;
  computeExternalRefs : string -> gmap string string -> result (list purl.PackageURL);
  cond_Evaluate : string -> result bool;
  NewSubstitutionMap : Configuration.t -> string -> string -> list string ->
                       result SubstitutionMap.t;
  Subpackage : SubstitutionMap.t -> Subpackage.t -> SubstitutionMap.t;
  BuildFlavor : Build.t -> string
}.

(** Modelled from the spec: [util.RightJoinMap], which is not part of
    compile.go.  The spec calls it a right-biased join: the entries of the
    left map, overlaid with the entries of the right map, so the right map
    wins on a key both have. *)
Definition RightJoinMap (left right : gmap string string) : gmap string string :=
  right ∪ left.

(** [fmt.Sprintf("${{inputs.%s}}", k)] *)
Definition inputsKey (k : string) : string := "${{inputs." +:+ k +:+ "}}".

(** A Go map read [m[k]]: the zero value when the key is absent. *)
Definition index (m : gmap string string) (k : string) : string :=
  default "" (m !! k).

(** Lines 288-301 of [compilePipeline]: the overrides that keep a value other
    than the default of their input. *)
Definition cleanedWith (with_ mutated : gmap string string)
    (inputs : gmap string Input.t) : gmap string string :=
  let defaults := Input.Default <$> inputs in
  map_imap (fun k _ =>
              let nk := inputsKey k in
              let nv := index mutated nk in
              if decide (nv <> index defaults k) then Some nv else None) with_.

Section compile.
Context {world : Collaborators}.

(** Lines 210-218 of [compilePipeline]: the loop over the lookup directories.
    [err] is the error held when the loop starts or left by the last read. *)
Fixpoint readFromDirs (uses : string) (dirs : list string) (err : error)
    : result string :=
  match dirs with
  | [] => Err err
  | pd :: rest =>
      match os_ReadFile (filepath_Join pd (uses +:+ ".yaml")) with
      | Ok data => Ok data
      | Err e => readFromDirs uses rest e
      end
  end.

(** Lines 204-230 of [compilePipeline]: the step that the [uses] block leaves
    in [*pipeline]. *)
Definition loadUses (c : Compiled.t) (pipeline : Pipeline.t) : outcome Pipeline.t :=
  let uses := Pipeline.Uses pipeline in
  if decide (uses <> "") then
    let* data :=
      match readFromDirs uses (Compiled.PipelineDirs c) (CouldNotFindUses uses) with
      | Ok data => Done data
      | Err _ => try UnableToLoadPipeline (f_ReadFile ("pipelines/" +:+ uses +:+ ".yaml"))
      end in
    try (UnableToParsePipeline uses) (yaml_Unmarshal data pipeline)
  else Done pipeline.

(** The spec's words for what resolution finds: a directory read fails; the
    bytes are those of the first directory, in list order, whose read
    succeeds; or every directory read fails and the embedded catalog has the
    bytes, or has not. *)
Definition unreadable (uses pd : string) : Prop :=
  exists e, os_ReadFile (filepath_Join pd (uses +:+ ".yaml")) = Err e.

Definition foundInDirs (uses : string) (dirs : list string) (data : string) : Prop :=
  exists before pd after,
    dirs = before ++ pd :: after
    /\ Forall (unreadable uses) before
    /\ os_ReadFile (filepath_Join pd (uses +:+ ".yaml")) = Ok data.

Definition foundEmbedded (uses : string) (dirs : list string) (data : string) : Prop :=
  Forall (unreadable uses) dirs
  /\ f_ReadFile ("pipelines/" +:+ uses +:+ ".yaml") = Ok data.

Definition found (uses : string) (dirs : list string) (data : string) : Prop :=
  foundInDirs uses dirs data \/ foundEmbedded uses dirs data.

Definition notFound (uses : string) (dirs : list string) : Prop :=
  Forall (unreadable uses) dirs
  /\ exists e, f_ReadFile ("pipelines/" +:+ uses +:+ ".yaml") = Err e.

(** Lines 242-269 of [compilePipeline]: the texts of the step rewritten
    against [mutated]. *)
Definition mutateTexts (mutated : gmap string string) (pipeline : Pipeline.t)
    : outcome Pipeline.t :=
  let* pipeline :=
    match Pipeline.Needs pipeline with
    | Some needs =>
        let* pkgs := rangeStrings (MutateStringFromMap mutated) MutatingNeeds
                                  (Needs.Packages needs) in
        Done (Pipeline.set_Needs (Some (Needs.mk pkgs)) pipeline)
    | None => Done pipeline
    end in
  let* pipeline :=
    if decide (Pipeline.WorkDir pipeline <> "") then
      let* d := try MutatingWorkdir (MutateStringFromMap mutated (Pipeline.WorkDir pipeline)) in
      Done (Pipeline.set_WorkDir d pipeline)
    else Done pipeline in
  let* runs := try MutatingRuns (MutateStringFromMap mutated (Pipeline.Runs pipeline)) in
  let pipeline := Pipeline.set_Runs runs pipeline in
  if decide (Pipeline.If pipeline <> "") then
    let* cnd := try MutatingIf (MutateAndQuoteStringFromMap mutated (Pipeline.If pipeline)) in
    Done (Pipeline.set_If cnd pipeline)
  else Done pipeline.

(** Lines 232-277 of [compilePipeline]: validation of the captured overrides,
    the rewriting of the step's texts and its references.  The result holds
    the accumulator, the step, the map [with] as [validateWith] left it, and
    [mutated]. *)
Definition substituteStep (c : Compiled.t) (sm : SubstitutionMap.t)
    (uses : string) (with_ : gmap string string) (pipeline : Pipeline.t)
    : outcome (Compiled.t * Pipeline.t * gmap string string * gmap string string) :=
  let '(with_, validation) := validateWith with_ (Pipeline.Inputs pipeline) in
  let* validated := try UnableToValidateWith validation in
  let* mutated := try MutatingWith (MutateWith sm validated) in
  let* pipeline := mutateTexts mutated pipeline in
  let* externalRefs := try ComputingExternalRefs (computeExternalRefs uses mutated) in
  Done (Compiled.appendExternalRefs externalRefs c, pipeline, with_, mutated).

(** [(c *Compiled) compilePipeline].  A template may nest steps that use
    templates in turn, so the recursion is bounded by [fuel], the depth of
    nesting the call may descend. *)
Fixpoint compilePipeline (fuel : nat) (c : Compiled.t) (sm : SubstitutionMap.t)
    (pipeline : Pipeline.t) : outcome (Compiled.t * Pipeline.t) :=
  match fuel with
  | 0 => OutOfFuel
  | S fuel =>
      let uses := Pipeline.Uses pipeline in
      let with_ := Pipeline.With pipeline in
      let* pipeline := loadUses c pipeline in
      let* (c, pipeline, with_, mutated) := substituteStep c sm uses with_ pipeline in
      let* (c, children) :=
        rangeIdx (fun i c p =>
                    let p := Pipeline.set_With (RightJoinMap mutated (Pipeline.With p)) p in
                    wrap (CompilingPipelineAt i) (compilePipeline fuel c sm p))
                 0 c (Pipeline.Pipeline pipeline) in
      let pipeline := Pipeline.set_Pipeline children pipeline in
      let cleaned := cleanedWith with_ mutated (Pipeline.Inputs pipeline) in
      let pipeline := Pipeline.set_With cleaned pipeline in
      let pipeline := Pipeline.set_Inputs ∅ pipeline in
      Done (c, pipeline)
  end.

(** Lines 279-286, the body of the loop over the nested steps as a call with
    fuel [S fuel] runs it on [&pipeline.Pipeline[i]]. *)
Definition compileNested (fuel : nat) (sm : SubstitutionMap.t)
    (mutated : gmap string string) (i : nat) (c : Compiled.t) (p : Pipeline.t)
    : outcome (Compiled.t * Pipeline.t) :=
  let p := Pipeline.set_With (RightJoinMap mutated (Pipeline.With p)) p in
  wrap (CompilingPipelineAt i) (compilePipeline fuel c sm p).

(** [identity] *)
Definition identity (p : Pipeline.t) : string :=
  if decide (Pipeline.Name p <> "") then Pipeline.Name p
  else if decide (Pipeline.Uses p <> "") then Pipeline.Uses p
  else "???".

(** [(c *Compiled) gatherDeps].  The result holds the accumulator and the
    step as the call leaves them.  The loop over the nested steps hands each
    call the address of the loop variable, a copy of the nested step: what
    the call writes into that copy is gone when the iteration ends, so only
    the accumulator is threaded through the loop.  Logging is left out. *)
Fixpoint gatherDeps (c : Compiled.t) (pipeline : Pipeline.t) {struct pipeline}
    : outcome (Compiled.t * Pipeline.t) :=
  let harvest :=
    let '(c, harvested) :=
      match Pipeline.Needs pipeline with
      | Some needs =>
          (Compiled.appendNeeds (Needs.Packages needs) c,
           Pipeline.set_Needs None pipeline)
      | None => (c, pipeline)
      end in
    let* c :=
      (fix range (c : Compiled.t) (ps : list Pipeline.t) : outcome Compiled.t :=
         match ps with
         | [] => Done c
         | p :: rest =>
             let* (c, _) := gatherDeps c p in
             range c rest
         end) c (Pipeline.Pipeline pipeline) in
    Done (c, harvested) in
  if decide (Pipeline.If pipeline <> "") then
    match cond_Evaluate (Pipeline.If pipeline) with
    | Err e => Failed (Wrap (EvaluatingConditional (Pipeline.If pipeline)) e)
    | Ok false => Done (c, pipeline)
    | Ok true => harvest
    end
  else harvest.

(** Lines 342-346 of [gatherDeps], the loop over the nested steps. *)
Fixpoint gatherNested (c : Compiled.t) (ps : list Pipeline.t)
    : outcome Compiled.t :=
  match ps with
  | [] => Done c
  | p :: rest =>
      let* (c, _) := gatherDeps c p in
      gatherNested c rest
  end.

(** Lines 333-348 of [gatherDeps], what the call does once the condition is
    found absent or true. *)
Definition harvest (c : Compiled.t) (pipeline : Pipeline.t)
    : outcome (Compiled.t * Pipeline.t) :=
  let '(c, harvested) :=
    match Pipeline.Needs pipeline with
    | Some needs =>
        (Compiled.appendNeeds (Needs.Packages needs) c,
         Pipeline.set_Needs None pipeline)
    | None => (c, pipeline)
    end in
  let* c := gatherNested c (Pipeline.Pipeline pipeline) in
  Done (c, harvested).

(** [(c *Compiled) CompilePipelines] *)
Definition CompilePipelines (fuel : nat) (c : Compiled.t) (sm : SubstitutionMap.t)
    (pipelines : list Pipeline.t) : outcome (Compiled.t * list Pipeline.t) :=
  rangeIdx (fun i c p =>
              let* (c, p) := wrap (CompilingPipelineAt i) (compilePipeline fuel c sm p) in
              wrap (GatheringDepsAt i) (gatherDeps c p))
           0 c pipelines.

(** A nil pointer dereference. *)
Definition deref {A} (ptr : option A) : outcome A :=
  match ptr with
  | Some a => Done a
  | None => Panic
  end.

(** Lines 62-67 and 124-129: the substitution of a subpackage's [if].  The
    text it yields is assigned to [sp.If], a field of the loop variable. *)
Definition mutateSubpackageIf (sm : SubstitutionMap.t) (sp : Subpackage.t)
    : outcome string :=
  if decide (Subpackage.If sp <> "") then
    try MutatingSubpackageIf
        (MutateAndQuoteStringFromMap (SubstitutionMap.Substitutions sm) (Subpackage.If sp))
  else Done (Subpackage.If sp).

(** Lines 60-88: one iteration of the loop of [(t *Test) Compile] over
    [cfg.Subpackages].  [sp] is the loop variable, a copy of
    [cfg.Subpackages[i]]: its slices and its [Test] pointer are those of the
    stored subpackage, its [If] is its own.  The result is
    [cfg.Subpackages[i]] as the iteration leaves it. *)
Definition Test_Compile_subpackage (fuel : nat) (dirs : list string)
    (sm : SubstitutionMap.t) (i : nat) (accs : Compiled.t * Compiled.t)
    (sp : Subpackage.t) : outcome (Compiled.t * Compiled.t * Subpackage.t) :=
  let '(c, ignore) := accs in
  let sm := Subpackage sm sp in
  let* spIf := mutateSubpackageIf sm sp in
  let* (ignore, pipeline) :=
    wrap (CompilingSubpackage (Subpackage.Name sp))
         (CompilePipelines fuel ignore sm (Subpackage.Pipeline sp)) in
  let test := Compiled.fresh dirs in
  let* spTest := deref (Subpackage.Test sp) in
  let* (c, testPipeline) :=
    wrap (CompilingSubpackageTests (Subpackage.Name sp))
         (CompilePipelines fuel c sm (config.Test.Pipeline spTest)) in
  let te := config.Test.Environment spTest in
  let te := ImageConfiguration.appendPackages [Subpackage.Name sp] te in
  let te := ImageConfiguration.appendPackages (Compiled.Needs test) te in
  Done (c, ignore,
        Subpackage.mk (Subpackage.Name sp) (Subpackage.If sp) pipeline
                      (Some (config.Test.mk te testPipeline))).

(** [(t *Test) Compile].  [cfg] is a copy of [t.Configuration] that shares
    its slices and its [Test] pointer, so what is compiled through [cfg] is
    compiled in [t.Configuration]. *)
Definition Test_Compile (fuel : nat) (t : Test.t) : outcome Test.t :=
  let cfg := Test.Configuration t in
  let flavor := "gnu" in
  let* sm := pass (NewSubstitutionMap cfg (Test.Arch t) flavor []) in
  let c := Compiled.fresh (Test.PipelineDirs t) in
  let ignore := Compiled.fresh (Test.PipelineDirs t) in
  let* (ignore, pipeline) :=
    wrap CompilingMainPipelines
         (CompilePipelines fuel ignore sm (Configuration.Pipeline cfg)) in
  let* cfgTest := deref (Configuration.Test cfg) in
  let* (c, testPipeline) :=
    wrap CompilingMainPipelines
         (CompilePipelines fuel c sm (config.Test.Pipeline cfgTest)) in
  let* (c, ignore, subpackages) :=
    rangeIdx (Test_Compile_subpackage fuel (Test.PipelineDirs t) sm)
             0 (c, ignore) (Configuration.Subpackages cfg) in
  let te := config.Test.Environment cfgTest in
  let te :=
    if decide (Test.Package t <> "") then
      ImageConfiguration.appendPackages [Test.Package t] te
    else
      ImageConfiguration.appendPackages [Package.Name (Configuration.Package cfg)] te in
  let te := ImageConfiguration.appendPackages (Compiled.Needs c) te in
  Done (Test.mk
          (Configuration.mk (Configuration.Package cfg) (Configuration.Environment cfg)
                            pipeline subpackages
                            (Some (config.Test.mk te testPipeline)))
          (Test.Arch t) (Test.PipelineDirs t) (Test.Package t)).

(** Lines 121-153: one iteration of the loop of [(b *Build) Compile] over
    [cfg.Subpackages]; [sp] is again a copy of [cfg.Subpackages[i]]. *)
Definition Build_Compile_subpackage (fuel : nat) (dirs : list string)
    (sm : SubstitutionMap.t) (i : nat) (c : Compiled.t) (sp : Subpackage.t)
    : outcome (Compiled.t * Subpackage.t) :=
  let sm := Subpackage sm sp in
  let* spIf := mutateSubpackageIf sm sp in
  let* (c, pipeline) :=
    wrap (CompilingSubpackage (Subpackage.Name sp))
         (CompilePipelines fuel c sm (Subpackage.Pipeline sp)) in
  match Subpackage.Test sp with
  | None =>
      Done (c, Subpackage.mk (Subpackage.Name sp) (Subpackage.If sp) pipeline None)
  | Some spTest =>
      let tc := Compiled.fresh dirs in
      let* (tc, testPipeline) :=
        wrap (CompilingSubpackageTests (Subpackage.Name sp))
             (CompilePipelines fuel tc sm (config.Test.Pipeline spTest)) in
      let te := config.Test.Environment spTest in
      let te := ImageConfiguration.appendPackages [Subpackage.Name sp] te in
      let te := ImageConfiguration.appendPackages (Compiled.Needs tc) te in
      Done (c, Subpackage.mk (Subpackage.Name sp) (Subpackage.If sp) pipeline
                             (Some (config.Test.mk te testPipeline)))
  end.

(** [(b *Build) Compile] *)
Definition Build_Compile (fuel : nat) (b : Build.t) : outcome Build.t :=
  let cfg := Build.Configuration b in
  let* sm := pass (NewSubstitutionMap cfg (Build.Arch b) (BuildFlavor b)
                                      (Build.EnabledBuildOptions b)) in
  let c := Compiled.fresh (Build.PipelineDirs b) in
  let* (c, pipeline) :=
    wrap CompilingMainPipelines
         (CompilePipelines fuel c sm (Configuration.Pipeline cfg)) in
  let* (c, subpackages) :=
    rangeIdx (Build_Compile_subpackage fuel (Build.PipelineDirs b) sm)
             0 c (Configuration.Subpackages cfg) in
  let ic := ImageConfiguration.appendPackages (Compiled.Needs c)
                                              (Configuration.Environment cfg) in
  let* test :=
    match Configuration.Test cfg with
    | Some cfgTest =>
        let tc := Compiled.fresh (Build.PipelineDirs b) in
        let* (tc, testPipeline) :=
          wrap CompilingMainPipelines
               (CompilePipelines fuel tc sm (config.Test.Pipeline cfgTest)) in
        let te := config.Test.Environment cfgTest in
        let te := ImageConfiguration.appendPackages (Compiled.Needs tc) te in
        let te := ImageConfiguration.appendPackages
                    [Package.Name (Configuration.Package cfg)] te in
        Done (Some (config.Test.mk te testPipeline))
    | None => Done None
    end in
  Done (Build.mk
          (Configuration.mk (Configuration.Package cfg) ic pipeline subpackages test)
          (Build.Arch b) (Build.PipelineDirs b) (Build.EnabledBuildOptions b)
          (Compiled.ExternalRefs c)).

(** The spec's aggregated needs, and references, of a list of pipelines: what
    compiling the list into a fresh accumulator leaves there. *)
Definition yields (fuel : nat) (dirs : list string) (sm : SubstitutionMap.t)
    (pipelines : list Pipeline.t) (d : gain) : Prop :=
  exists compiled,
    CompilePipelines fuel (Compiled.fresh dirs) sm pipelines
    = Done (Compiled.mk dirs d.1 d.2, compiled).

End compile.

(** ** A small world to run the compiler in

    Stand-ins for the collaborators, used by the examples below: a file
    system with one template directory, an embedded catalog, a decoder that
    knows the bytes of these templates, and substitution of whole-string
    variable references. *)
Module sample.

Definition fetchYaml : string := "name: fetch; needs: [wget]; inputs: {uri: required}".
Definition stripYaml : string := "name: strip; needs: [binutils]".
Definition patchYaml : string := "name: patch; with: {strip: 9}; inputs: {strip: {default: 1}}".

Definition readFile (path : string) : result string :=
  if decide (path = "/work/pipelines/fetch.yaml") then Ok fetchYaml
  else Err (Foreign "open: no such file or directory").

Definition readEmbedded (path : string) : result string :=
  if decide (path = "pipelines/strip.yaml") then Ok stripYaml
  else if decide (path = "pipelines/patch.yaml") then Ok patchYaml
  else Err (Foreign "open: file does not exist").

(** Decoding overwrites the fields the document has and keeps the others; a
    map of the document is decoded into the map the step has. *)
Definition unmarshal (data : string) (p : Pipeline.t) : result Pipeline.t :=
  if decide (data = fetchYaml) then
    Ok (Pipeline.mk "fetch" (Pipeline.Uses p) (Pipeline.With p) (Pipeline.Runs p)
          (Pipeline.Pipeline p) {[ "uri" := Input.mk "" "" true ]}
          (Some (Needs.mk ["wget"])) (Pipeline.If p) (Pipeline.WorkDir p))
  else if decide (data = stripYaml) then
    Ok (Pipeline.mk "strip" (Pipeline.Uses p) (Pipeline.With p) (Pipeline.Runs p)
          (Pipeline.Pipeline p) (Pipeline.Inputs p)
          (Some (Needs.mk ["binutils"])) (Pipeline.If p) (Pipeline.WorkDir p))
  else if decide (data = patchYaml) then
    Ok (Pipeline.mk "patch" (Pipeline.Uses p) ({[ "strip" := "9" ]} ∪ Pipeline.With p)
          (Pipeline.Runs p) (Pipeline.Pipeline p) {[ "strip" := Input.mk "" "1" false ]}
          (Pipeline.Needs p) (Pipeline.If p) (Pipeline.WorkDir p))
  else Err (Foreign "yaml: unmarshal errors").

(** Fills in the defaults of the inputs that have no override and fails when
    a required input is left empty. *)
Definition validate (data : gmap string string) (inputs : gmap string Input.t)
    : gmap string string * result (gmap string string) :=
  let filled :=
    merge (fun d i =>
             match i with
             | Some input =>
                 if decide (default "" d = "") then Some (Input.Default input) else d
             | None => d
             end) data inputs in
  let missing :=
    map_fold (fun k input acc =>
                acc || (Input.Required input && bool_decide (index filled k = "")))
             false inputs in
  (filled, if missing then Err (Foreign "required input for pipeline is missing")
           else Ok filled).

Definition mutateWith (sm : SubstitutionMap.t) (with_ : gmap string string)
    : result (gmap string string) :=
  Ok (map_fold (fun k v nw =>
                  if String.prefix "${{" k then <[k := v]> nw
                  else <[inputsKey k := v]> nw)
               (SubstitutionMap.Substitutions sm) with_).

Definition mutateString (m : gmap string string) (s : string) : result string :=
  match m !! s with
  | Some v => Ok v
  | None => if String.prefix "${{" s then Err (Foreign "variable not defined") else Ok s
  end.

Definition mutateAndQuote (m : gmap string string) (s : string) : result string :=
  match m !! s with
  | Some v => Ok ("'" +:+ v +:+ "'")
  | None => if String.prefix "${{" s then Err (Foreign "variable not defined") else Ok s
  end.

Definition externalRefs (uses : string) (mutated : gmap string string)
    : result (list purl.PackageURL) :=
  if decide (uses = "fetch") then
    Ok [purl.mkPackageURL "generic" "" "fetch" ""
          [("download_url", index mutated "${{inputs.uri}}")] ""]
  else Ok [].

Definition evaluate (text : string) : result bool :=
  if decide (text = "true" \/ text = "'true'") then Ok true
  else if decide (text = "false" \/ text = "'false'") then Ok false
  else Err (Foreign "condition is not a boolean expression").

Definition newSubstitutionMap (cfg : Configuration.t) (arch flavor : string)
    (options : list string) : result SubstitutionMap.t :=
  Ok (SubstitutionMap.mk
        {[ "${{package.name}}" := Package.Name (Configuration.Package cfg);
           "${{build.arch}}" := arch;
           "${{options.static}}" := "false" ]}).

Definition subpackage (sm : SubstitutionMap.t) (sp : Subpackage.t) : SubstitutionMap.t :=
  SubstitutionMap.mk
    (<[ "${{subpkg.name}}" := Subpackage.Name sp ]> (SubstitutionMap.Substitutions sm)).

Definition world : Collaborators := {|
  os_ReadFile := readFile;
  filepath_Join := fun dir file => dir +:+ "/" +:+ file;
  f_ReadFile := readEmbedded;
  yaml_Unmarshal := unmarshal;
  validateWith := validate;
  MutateWith := mutateWith;
  MutateStringFromMap := mutateString;
  MutateAndQuoteStringFromMap := mutateAndQuote;
  computeExternalRefs := externalRefs;
  cond_Evaluate := evaluate;
  NewSubstitutionMap := newSubstitutionMap;
  Subpackage := subpackage;
  BuildFlavor := fun _ => "gnu"
|}.

Definition step (name : string) (needs : list string) (cnd : string)
    (children : list Pipeline.t) : Pipeline.t :=
  Pipeline.mk name "" ∅ "" children ∅ (Some (Needs.mk needs)) cnd "".

Definition usesStep (uses : string) (with_ : gmap string string) : Pipeline.t :=
  Pipeline.mk "" uses with_ "" [] ∅ None "" "".

Definition env (pkgs : list string) : ImageConfiguration.t :=
  ImageConfiguration.mk (ImageContents.mk pkgs).

Definition dirs : list string := ["/work/pipelines"].

Definition sm : SubstitutionMap.t :=
  SubstitutionMap.mk {[ "${{package.name}}" := "hello" ]}.

(** A step with a nested step, neither with a condition. *)
Definition configure : Pipeline.t := step "configure" ["gcc"] "" [].
Definition build : Pipeline.t := step "build" ["make"] "" [configure].

(** A disabled step with a nested step. *)
Definition disabled : Pipeline.t := step "static" ["musl-dev"] "false" [configure].

(** A package with one subpackage; both have a test pipeline that needs a
    package. *)
Definition hello_dev : Subpackage.t :=
  Subpackage.mk "hello-dev" "${{options.static}}"
    [step "split" ["scanelf"] "" []]
    (Some (config.Test.mk (env ["busybox"]) [step "smoke" ["pkgconf"] "" []])).

Definition hello : Configuration.t :=
  Configuration.mk (Package.mk "hello") (env ["build-base"])
    [build]
    [hello_dev]
    (Some (config.Test.mk (env []) [step "check" ["bash"] "" []])).

Definition helloTest : Test.t := Test.mk hello "x86_64" dirs "".
Definition helloBuild : Build.t := Build.mk hello "x86_64" dirs [] [].

(** The same package with a subpackage condition that names no variable. *)
Definition hello_dev_undefined : Subpackage.t :=
  Subpackage.mk "hello-dev" "${{options.undefined}}" [] None.

Definition helloUndefined : Build.t :=
  Build.mk (Configuration.mk (Package.mk "hello") (env []) [] [hello_dev_undefined] None)
           "x86_64" dirs [] [].

End sample.

(** ** Measures of a tree and of an outcome *)

Section measures.
Context {world : Collaborators}.

(** The spec's words for what the aggregation pass takes from a tree: nothing
    from a step whose condition is neither absent nor true; otherwise the
    packages of the step, then what it takes from each nested step, in
    order. *)
Fixpoint enabledNeeds (p : Pipeline.t) : list string :=
  let taken :=
    from_option Needs.Packages [] (Pipeline.Needs p)
    ++ flat_map enabledNeeds (Pipeline.Pipeline p) in
  if decide (Pipeline.If p <> "") then
    match cond_Evaluate (Pipeline.If p) with
    | Ok true => taken
    | _ => []
    end
  else taken.

(** A tree of steps without template reference, nested less than [n] deep. *)
Fixpoint literalWithin (n : nat) (p : Pipeline.t) : bool :=
  match n with
  | 0 => false
  | S n => bool_decide (Pipeline.Uses p = "")
           && forallb (literalWithin n) (Pipeline.Pipeline p)
  end.

End measures.

(** An outcome that is a normal return or an error, or also, when [fuel] is
    set, the end of the fuel; never a panic. *)
Definition settled {A} (fuel : bool) (m : outcome A) : Prop :=
  match m with
  | Done _ | Failed _ => True
  | OutOfFuel => fuel = true
  | Panic => False
  end.


(** ** Inputs at the edges *)
Module edge.

(** A package with a subpackage and no test of its own. *)
Definition untested : Configuration.t :=
  Configuration.mk (Package.mk "hello") (sample.env ["build-base"])
    [sample.build] [sample.hello_dev] None.

Definition untestedTest : Test.t := Test.mk untested "x86_64" sample.dirs "".
Definition untestedBuild : Build.t := Build.mk untested "x86_64" sample.dirs [] [].

(** The sample package tested under a package name given from outside. *)
Definition renamedTest : Test.t := Test.mk sample.hello "x86_64" sample.dirs "hello-full".

(** A package whose subpackage uses a template that no source has. *)
Definition broken : Build.t :=
  Build.mk (Configuration.mk (Package.mk "hello") (sample.env []) []
              [Subpackage.mk "hello-doc" "" [sample.usesStep "nope" ∅] None] None)
           "x86_64" sample.dirs [] [].

End edge.

(** * Properties *)

(** ** Results of the sequencing operators *)

Lemma bind_Done {A B} (m : outcome A) (k : A -> outcome B) (b : B) :
  bind m k = Done b -> exists a, m = Done a /\ k a = Done b.
Proof. destruct m; simpl; intros E; try discriminate. eauto. Qed.

Lemma try_Done {A} (ctx : context) (r : result A) (a : A) :
  try ctx r = Done a -> r = Ok a.
Proof. destruct r; simpl; congruence. Qed.

Lemma pass_Done {A} (r : result A) (a : A) :
  pass r = Done a -> r = Ok a.
Proof. destruct r; simpl; congruence. Qed.

Lemma wrap_Done {A} (ctx : context) (m : outcome A) (a : A) :
  wrap ctx m = Done a -> m = Done a.
Proof. destruct m; simpl; congruence. Qed.

Lemma deref_Done {A} (ptr : option A) (a : A) :
  deref ptr = Done a -> ptr = Some a.
Proof. destruct ptr; simpl; congruence. Qed.

(** Splits a hypothesis [_ = Done _] along the binds it went through. *)
Ltac done_inv :=
  repeat match goal with
    | E : bind _ _ = Done _ |- _ =>
        let a := fresh "a" in
        let Ea := fresh "E" in
        apply bind_Done in E as (a & Ea & E)
    | E : try _ _ = Done _ |- _ => apply try_Done in E
    | E : pass _ = Done _ |- _ => apply pass_Done in E
    | E : wrap _ _ = Done _ |- _ => apply wrap_Done in E
    | E : deref _ = Done _ |- _ => apply deref_Done in E
    | E : Done _ = Done _ |- _ => injection E as E; subst
    | a : (_ * _)%type |- _ => destruct a
    end.

Lemma rangeIdx_length {St A} (body : nat -> St -> A -> outcome (St * A))
    (xs : list A) : forall i s s' ys,
  rangeIdx body i s xs = Done (s', ys) -> length ys = length xs.
Proof.
  induction xs as [|x xs IH]; simpl; intros i s s' ys E.
  - by injection E as <- <-.
  - done_inv. simpl. f_equal. eauto.
Qed.

Lemma rangeIdx_lookup {St A} (body : nat -> St -> A -> outcome (St * A))
    (xs : list A) : forall i s s' ys,
  rangeIdx body i s xs = Done (s', ys) ->
  forall j x, xs !! j = Some x ->
  exists sj sj' y, body (i + j) sj x = Done (sj', y) /\ ys !! j = Some y.
Proof.
  induction xs as [|x xs IH]; simpl; intros i s s' ys E j y Hj.
  - by rewrite lookup_nil in Hj.
  - done_inv. destruct j as [|j]; simpl in *.
    + injection Hj as <-. rewrite Nat.add_0_r. eauto.
    + replace (i + S j) with (S i + j) by lia. eauto.
Qed.

(** ** The aggregation pass *)

(** C2: a step whose condition evaluates to false leaves the accumulator and
    the step as they were and returns no error, whatever the step needs and
    whatever is nested in it: nothing of the step or below it is visited. *)
Theorem gatherDeps_false_condition_prunes {world : Collaborators}
    (c : Compiled.t) (pipeline : Pipeline.t) :
  Pipeline.If pipeline <> "" ->
  cond_Evaluate (Pipeline.If pipeline) = Ok false ->
  gatherDeps c pipeline = Done (c, pipeline).
Proof.
  intros Hif Hfalse. destruct pipeline; simpl in *.
  rewrite decide_True by done. by rewrite Hfalse.
Qed.

Lemma gatherDeps_false_condition_prunes_witness :
  gatherDeps (world := sample.world) (Compiled.fresh sample.dirs) sample.disabled
  = Done (Compiled.fresh sample.dirs, sample.disabled).
Proof.
  apply (gatherDeps_false_condition_prunes (world := sample.world));
    [by vm_compute | reflexivity].
Defined.

(** C4, on a step with a nested step and no conditions, whatever the
    collaborators are: the first harvest takes the needs of both steps and
    clears the field of the outer step only; the nested step is left with its
    needs in the tree, and a second harvest of the same tree takes them
    again. *)
Theorem gatherDeps_nested_needs_survive {world : Collaborators} :
  let c := Compiled.fresh [] in
  let harvested := Pipeline.set_Needs None sample.build in
  gatherDeps c sample.build = Done (Compiled.mk [] ["make"; "gcc"] [], harvested)
  /\ Pipeline.Pipeline harvested = [sample.configure]
  /\ Pipeline.Needs sample.configure = Some (Needs.mk ["gcc"])
  /\ gatherDeps c harvested = Done (Compiled.mk [] ["gcc"] [], harvested).
Proof. repeat split. Qed.

(** ** Compilation of a step *)

Lemma Pipeline_nested_ind (P : Pipeline.t -> Prop) :
  (forall p, Forall P (Pipeline.Pipeline p) -> P p) -> forall p, P p.
Proof.
  intros step. fix rec 1. intros [name uses with_ runs children inputs needs cnd dir].
  apply step. simpl. induction children as [|child children IH]; constructor.
  - apply rec.
  - apply IH.
Qed.

(** [mutateTexts] rewrites texts: it keeps the inputs and the nested steps
    of the step, and does not read its overrides. *)
Lemma mutateTexts_Done {world : Collaborators} mutated p q :
  mutateTexts mutated p = Done q ->
  Pipeline.Inputs q = Pipeline.Inputs p /\ Pipeline.Pipeline q = Pipeline.Pipeline p.
Proof.
  unfold mutateTexts. intros E.
  apply bind_Done in E as (p1 & E1 & E). apply bind_Done in E as (p2 & E2 & E).
  apply bind_Done in E as (runs & _ & E).
  assert (Pipeline.Inputs p1 = Pipeline.Inputs p
          /\ Pipeline.Pipeline p1 = Pipeline.Pipeline p) as [<- <-].
  { clear E E2. destruct (Pipeline.Needs p); done_inv; split; reflexivity. }
  assert (Pipeline.Inputs p2 = Pipeline.Inputs p1
          /\ Pipeline.Pipeline p2 = Pipeline.Pipeline p1) as [<- <-].
  { clear E E1. case_decide; done_inv; split; reflexivity. }
  clear E1 E2. case_decide; done_inv; split; reflexivity.
Qed.

Lemma mutateTexts_set_With {world : Collaborators} mutated p w :
  mutateTexts mutated (Pipeline.set_With w p)
  = let* q := mutateTexts mutated p in Done (Pipeline.set_With w q).
Proof.
  unfold mutateTexts. simpl.
  destruct (Pipeline.Needs p) as [needs|]; simpl;
    [destruct (rangeStrings _ _ _); simpl; try done|];
    (case_decide; simpl;
     [destruct (MutateStringFromMap mutated (Pipeline.WorkDir p)); simpl; try done|];
     destruct (MutateStringFromMap mutated (Pipeline.Runs p)); simpl; try done;
     case_decide; simpl; try done;
     by destruct (MutateAndQuoteStringFromMap mutated (Pipeline.If p))).
Qed.

Lemma substituteStep_Done {world : Collaborators} c sm uses with_ p c' q with' mutated :
  substituteStep c sm uses with_ p = Done (c', q, with', mutated) ->
  exists validated refs,
    validateWith with_ (Pipeline.Inputs p) = (with', Ok validated)
    /\ MutateWith sm validated = Ok mutated
    /\ mutateTexts mutated p = Done q
    /\ computeExternalRefs uses mutated = Ok refs
    /\ c' = Compiled.appendExternalRefs refs c.
Proof.
  unfold substituteStep. destruct (validateWith with_ (Pipeline.Inputs p)) as [w validation].
  intros E.
  apply bind_Done in E as (validated & Hvalid%try_Done & E).
  apply bind_Done in E as (m & Hmutate%try_Done & E).
  apply bind_Done in E as (q0 & Htexts & E).
  apply bind_Done in E as (refs & Hrefs%try_Done & E).
  injection E as <- <- <- <-. exists validated, refs. by rewrite Hvalid.
Qed.

(** What [substituteStep] computes does not depend on the accumulator, to
    which it only appends references. *)
Lemma substituteStep_frame {world : Collaborators} c sm uses with_ p c' q with' mutated :
  substituteStep c sm uses with_ p = Done (c', q, with', mutated) ->
  exists refs, forall c0,
    substituteStep c0 sm uses with_ p
    = Done (Compiled.appendExternalRefs refs c0, q, with', mutated).
Proof.
  intros E. apply substituteStep_Done in E
    as (validated & refs & Hvalid & Hmutate & Htexts & Hrefs & _).
  exists refs. intros c0. unfold substituteStep.
  rewrite Hvalid; simpl. rewrite Hmutate; simpl. rewrite Htexts; simpl.
  by rewrite Hrefs.
Qed.

Lemma extend_extend d1 d2 c : extend d2 (extend d1 c) = extend (gains d1 d2) c.
Proof. destruct c, d1, d2; unfold extend, gains; simpl. by rewrite !app_assoc. Qed.

Lemma extend_nil c : extend ([], []) c = c.
Proof. destruct c; unfold extend; simpl. by rewrite !app_nil_r. Qed.

Lemma extend_fresh d dirs : extend d (Compiled.fresh dirs) = Compiled.mk dirs d.1 d.2.
Proof. reflexivity. Qed.

Lemma extend_dirs d c : Compiled.PipelineDirs (extend d c) = Compiled.PipelineDirs c.
Proof. reflexivity. Qed.

Lemma framed_at {A B} (f : Compiled.t -> A -> outcome (Compiled.t * B)) c x c' y :
  framed f -> f c x = Done (c', y) ->
  exists d, c' = extend d c /\
    forall c0, Compiled.PipelineDirs c0 = Compiled.PipelineDirs c ->
               f c0 x = Done (extend d c0, y).
Proof.
  intros Hf E. destruct (Hf _ _ _ _ E) as [d Hd]. exists d. split; [|done].
  specialize (Hd c eq_refl). congruence.
Qed.

Lemma rangeIdx_framed {A} (body : nat -> Compiled.t -> A -> outcome (Compiled.t * A)) :
  (forall i, framed (body i)) -> forall i, framed (rangeIdx body i).
Proof.
  intros Hbody i c xs. revert i c.
  induction xs as [|x xs IH]; simpl; intros i c c' ys E.
  - done_inv. exists ([], []). intros c0 _. unfold extend; simpl.
    rewrite !app_nil_r. by destruct c0.
  - done_inv.
    destruct (framed_at _ _ _ _ _ (Hbody i) E0) as (d1 & -> & H1).
    destruct (IH _ _ _ _ E1) as [d2 H2].
    exists (gains d1 d2). intros c0 Hdirs.
    rewrite (H1 c0 Hdirs); simpl. rewrite H2 by done; simpl.
    by rewrite extend_extend.
Qed.


Lemma loadUses_dirs {world : Collaborators} c0 c p :
  Compiled.PipelineDirs c0 = Compiled.PipelineDirs c -> loadUses c0 p = loadUses c p.
Proof. unfold loadUses. by intros ->. Qed.

Lemma wrap_framed {A B} (ctx : context) (f : Compiled.t -> A -> outcome (Compiled.t * B)) :
  framed f -> framed (fun c x => wrap ctx (f c x)).
Proof.
  intros Hf c x c' y E. done_inv. destruct (Hf _ _ _ _ E) as [d Hd].
  exists d. intros c0 Hdirs. by rewrite Hd.
Qed.

Lemma compilePipeline_Done {world : Collaborators} fuel c sm p c' p' :
  compilePipeline (S fuel) c sm p = Done (c', p') ->
  exists r c1 q with' mutated children,
    loadUses c p = Done r
    /\ substituteStep c sm (Pipeline.Uses p) (Pipeline.With p) r
       = Done (c1, q, with', mutated)
    /\ rangeIdx (compileNested fuel sm mutated) 0 c1 (Pipeline.Pipeline q)
       = Done (c', children)
    /\ p' = Pipeline.set_Inputs ∅
              (Pipeline.set_With (cleanedWith with' mutated (Pipeline.Inputs q))
                 (Pipeline.set_Pipeline children q)).
Proof.
  simpl. intros E.
  apply bind_Done in E as (r & Hload & E).
  apply bind_Done in E as ([[[c1 q] with'] mutated] & Hsubst & E).
  apply bind_Done in E as ([c2 children] & Hnested & E).
  injection E as <- <-. by exists r, c1, q, with', mutated, children.
Qed.

Lemma compilePipeline_framed {world : Collaborators} fuel sm :
  framed (fun c p => compilePipeline fuel c sm p).
Proof.
  induction fuel as [|fuel IH]; intros c p c' p' E; [done|].
  apply compilePipeline_Done in E
    as (r & c1 & q & with' & mutated & children & Hload & Hsubst & Hnested & ->).
  destruct (substituteStep_frame _ _ _ _ _ _ _ _ _ Hsubst) as [refs Hrefs].
  pose proof (Hrefs c) as Hc. rewrite Hsubst in Hc. injection Hc as ->.
  assert (Hbody : forall i, framed (compileNested fuel sm mutated i)).
  { intros i. apply wrap_framed. intros c1 x c1' y Ex.
    destruct (IH _ _ _ _ Ex) as [d Hd]. by exists d. }
  destruct (rangeIdx_framed _ Hbody 0 _ _ _ _ Hnested) as [d Hd].
  exists (gains ([], refs) d). intros c0 Hdirs. simpl.
  rewrite (loadUses_dirs c0 c) by done. rewrite Hload; simpl.
  rewrite Hrefs; simpl.
  change (rangeIdx _ 0 ?a ?b) with (rangeIdx (compileNested fuel sm mutated) 0 a b).
  rewrite (Hd (Compiled.appendExternalRefs refs c0)) by done. simpl.
  do 2 f_equal. destruct c0, d; unfold extend, gains, Compiled.appendExternalRefs; simpl.
  by rewrite app_assoc.
Qed.

Lemma gatherDeps_unfold {world : Collaborators} c p :
  gatherDeps c p =
  if decide (Pipeline.If p <> "") then
    match cond_Evaluate (Pipeline.If p) with
    | Err e => Failed (Wrap (EvaluatingConditional (Pipeline.If p)) e)
    | Ok false => Done (c, p)
    | Ok true => harvest c p
    end
  else harvest c p.
Proof. by destruct p. Qed.

(** With its condition absent or true, a call appends the needs of the step,
    clears the field in the step it was given, and visits the nested steps in
    order. *)
Lemma gatherDeps_enabled {world : Collaborators} c p :
  Pipeline.If p = "" \/ cond_Evaluate (Pipeline.If p) = Ok true ->
  gatherDeps c p
  = let* c' := gatherNested
                 (Compiled.appendNeeds
                    (from_option Needs.Packages [] (Pipeline.Needs p)) c)
                 (Pipeline.Pipeline p) in
    Done (c', Pipeline.set_Needs None p).
Proof.
  intros Henabled. rewrite gatherDeps_unfold.
  assert (Hharvest : harvest c p
            = let* c' := gatherNested
                           (Compiled.appendNeeds
                              (from_option Needs.Packages [] (Pipeline.Needs p)) c)
                           (Pipeline.Pipeline p) in
              Done (c', Pipeline.set_Needs None p)).
  { unfold harvest. destruct p as [? ? ? ? ? ? [needs|] ? ?]; simpl; [done|].
    unfold Compiled.appendNeeds. rewrite app_nil_r. by destruct c. }
  destruct Henabled as [Hif|Htrue].
  - by rewrite decide_False by (by intros []).
  - case_decide; [by rewrite Htrue|done].
Qed.

(** No call changes the nested steps of the step it was given: their needs
    stay in the tree. *)
Lemma gatherDeps_keeps_nested {world : Collaborators} c p c' p' :
  gatherDeps c p = Done (c', p') -> Pipeline.Pipeline p' = Pipeline.Pipeline p.
Proof.
  rewrite gatherDeps_unfold. unfold harvest. intros E.
  assert (Hharvest :
    (let '(c, harvested) :=
       match Pipeline.Needs p with
       | Some needs => (Compiled.appendNeeds (Needs.Packages needs) c,
                        Pipeline.set_Needs None p)
       | None => (c, p)
       end in
     let* c := gatherNested c (Pipeline.Pipeline p) in Done (c, harvested))
    = Done (c', p') -> Pipeline.Pipeline p' = Pipeline.Pipeline p).
  { clear E. destruct (Pipeline.Needs p); intros E;
      apply bind_Done in E as (c1 & _ & E); by injection E as <- <-. }
  case_decide; [|by apply Hharvest].
  destruct (cond_Evaluate (Pipeline.If p)) as [[|]|]; [by apply Hharvest| |done].
  by injection E as <- <-.
Qed.

Lemma gatherNested_framed {world : Collaborators} (ps : list Pipeline.t) :
  Forall (fun p => forall c c' p', gatherDeps c p = Done (c', p') ->
                   exists d, forall c0, gatherDeps c0 p = Done (extend d c0, p')) ps ->
  forall c c', gatherNested c ps = Done c' ->
  exists d, forall c0, gatherNested c0 ps = Done (extend d c0).
Proof.
  induction 1 as [|p ps Hp _ IH]; simpl; intros c c' E.
  - injection E as <-. exists ([], []). intros c0. unfold extend; simpl.
    rewrite !app_nil_r. by destruct c0.
  - apply bind_Done in E as ([c1 p1] & Ep & E).
    destruct (Hp _ _ _ Ep) as [d1 H1]. destruct (IH _ _ E) as [d2 H2].
    exists (gains d1 d2). intros c0. rewrite H1; simpl. rewrite H2.
    by rewrite extend_extend.
Qed.

Lemma gatherDeps_frame {world : Collaborators} p :
  forall c c' p', gatherDeps c p = Done (c', p') ->
  exists d, forall c0, gatherDeps c0 p = Done (extend d c0, p').
Proof.
  induction p as [p IH] using Pipeline_nested_ind. intros c c' p'.
  assert (Hharvest : forall c c' p', harvest c p = Done (c', p') ->
            exists d, forall c0, harvest c0 p = Done (extend d c0, p')).
  { clear c c' p'. unfold harvest. intros c c' p' E.
    destruct (Pipeline.Needs p) as [needs|].
    - apply bind_Done in E as (c1 & Enested & E). injection E as <- <-.
      destruct (gatherNested_framed _ IH _ _ Enested) as [d Hd].
      exists (gains (Needs.Packages needs, []) d). intros c0. rewrite Hd; simpl.
      do 2 f_equal. destruct c0, d; unfold extend, gains, Compiled.appendNeeds; simpl.
      by rewrite app_assoc.
    - apply bind_Done in E as (c1 & Enested & E). injection E as <- <-.
      destruct (gatherNested_framed _ IH _ _ Enested) as [d Hd].
      exists d. intros c0. by rewrite Hd. }
  intros E. rewrite gatherDeps_unfold in E.
  destruct (decide (Pipeline.If p <> "")) as [Hif|Hif].
  - destruct (cond_Evaluate (Pipeline.If p)) as [[|]|] eqn:Hev; try done.
    + destruct (Hharvest _ _ _ E) as [d Hd]. exists d. intros c0.
      rewrite gatherDeps_unfold, decide_True, Hev by done. apply Hd.
    + injection E as <- <-. exists ([], []). intros c0.
      by rewrite gatherDeps_unfold, decide_True, Hev, extend_nil by done.
  - destruct (Hharvest _ _ _ E) as [d Hd]. exists d. intros c0.
    rewrite gatherDeps_unfold, decide_False by done. apply Hd.
Qed.

Lemma gatherDeps_framed {world : Collaborators} : framed gatherDeps.
Proof.
  intros c p c' p' E. destruct (gatherDeps_frame _ _ _ _ E) as [d Hd]. eauto.
Qed.

Lemma CompilePipelines_framed {world : Collaborators} fuel sm :
  framed (fun c ps => CompilePipelines fuel c sm ps).
Proof.
  apply rangeIdx_framed. intros i c p c' p' E.
  apply bind_Done in E as ([c1 p1] & Ecompile & Egather).
  apply wrap_Done in Ecompile, Egather.
  destruct (compilePipeline_framed _ _ _ _ _ _ Ecompile) as [d1 H1].
  destruct (gatherDeps_frame _ _ _ _ Egather) as [d2 H2].
  exists (gains d1 d2). intros c0 Hdirs.
  rewrite H1 by done; simpl. rewrite H2; simpl. by rewrite extend_extend.
Qed.

(** Compiling a list of pipelines into any accumulator appends to it what the
    list yields when it is compiled on its own. *)
Lemma CompilePipelines_yields {world : Collaborators} fuel sm c ps c' ps' :
  CompilePipelines fuel c sm ps = Done (c', ps') ->
  exists d, c' = extend d c /\ yields fuel (Compiled.PipelineDirs c) sm ps d.
Proof.
  intros E.
  destruct (framed_at _ _ _ _ _ (CompilePipelines_framed fuel sm) E) as (d & -> & Hd).
  exists d. split; [done|]. exists ps'. by rewrite Hd.
Qed.

(** ** Template resolution *)

Lemma readFromDirs_Ok {world : Collaborators} uses dirs err data :
  readFromDirs uses dirs err = Ok data <-> foundInDirs uses dirs data.
Proof.
  revert err. induction dirs as [|pd dirs IH]; simpl; intros err.
  - split; [done|]. intros (before & pd & after & Hdirs & _). by destruct before.
  - destruct (os_ReadFile (filepath_Join pd (uses +:+ ".yaml"))) as [d|e] eqn:Hread.
    + split.
      * intros [= ->]. exists [], pd, dirs. by repeat split.
      * intros ([|pd' before] & pd0 & after & Hdirs & Hbefore & Hpd); simplify_eq/=.
        -- congruence.
        -- apply Forall_cons_1 in Hbefore as [[e He] _]. congruence.
    + rewrite IH. split.
      * intros (before & pd0 & after & -> & Hbefore & Hpd).
        exists (pd :: before), pd0, after. repeat split; [|done].
        constructor; [by exists e | done].
      * intros ([|pd' before] & pd0 & after & Hdirs & Hbefore & Hpd); simplify_eq/=.
        -- congruence.
        -- apply Forall_cons_1 in Hbefore as [_ Hbefore].
           by exists before, pd0, after.
Qed.

Lemma readFromDirs_Err {world : Collaborators} uses dirs err :
  (exists e, readFromDirs uses dirs err = Err e) <-> Forall (unreadable uses) dirs.
Proof.
  revert err. induction dirs as [|pd dirs IH]; simpl; intros err.
  - split; eauto.
  - destruct (os_ReadFile (filepath_Join pd (uses +:+ ".yaml"))) as [d|e] eqn:Hread.
    + split; [by intros [? ?]|]. intros [[e He] _]%Forall_cons_1. congruence.
    + rewrite IH. split.
      * intros Hdirs. constructor; [by exists e | done].
      * by intros [_ ?]%Forall_cons_1.
Qed.

Lemma loadUses_found {world : Collaborators} c p data :
  Pipeline.Uses p <> "" ->
  found (Pipeline.Uses p) (Compiled.PipelineDirs c) data ->
  loadUses c p = try (UnableToParsePipeline (Pipeline.Uses p)) (yaml_Unmarshal data p).
Proof.
  intros Huses Hfound. unfold loadUses. rewrite decide_True by done.
  destruct Hfound as [Hdir|[Hall Hemb]].
  - apply (readFromDirs_Ok _ _ (CouldNotFindUses (Pipeline.Uses p))) in Hdir.
    by rewrite Hdir.
  - apply (readFromDirs_Err _ _ (CouldNotFindUses (Pipeline.Uses p))) in Hall as [e He].
    by rewrite He, Hemb.
Qed.

Lemma loadUses_notFound {world : Collaborators} c p :
  Pipeline.Uses p <> "" ->
  notFound (Pipeline.Uses p) (Compiled.PipelineDirs c) ->
  exists e, loadUses c p = Failed (Wrap UnableToLoadPipeline e).
Proof.
  intros Huses [Hall [e Hemb]]. unfold loadUses. rewrite decide_True by done.
  apply (readFromDirs_Err _ _ (CouldNotFindUses (Pipeline.Uses p))) in Hall as [e' He'].
  rewrite He', Hemb. by exists e.
Qed.

Lemma found_or_notFound {world : Collaborators} uses dirs :
  (exists data, found uses dirs data) \/ notFound uses dirs.
Proof.
  destruct (readFromDirs uses dirs (CouldNotFindUses uses)) as [data|e] eqn:Hread.
  - left. exists data. left. by apply (readFromDirs_Ok uses dirs (CouldNotFindUses uses)).
  - assert (Hall : Forall (unreadable uses) dirs).
    { apply (readFromDirs_Err uses dirs (CouldNotFindUses uses)). eauto. }
    destruct (f_ReadFile ("pipelines/" +:+ uses +:+ ".yaml")) as [data|e'] eqn:Hemb.
    + left. exists data. by right.
    + right. split; eauto.
Qed.

(** C5, as the code has it: a step without a template reference is left as it
    is; otherwise the bytes found (those of the first lookup directory, in
    list order, whose read succeeds, or else those of the embedded catalog)
    are decoded into the step, and resolution fails exactly when no source has
    the template or the bytes found do not decode.  A failed resolution is
    the error of the step's compilation, which may also fail further on. *)
Theorem loadUses_resolution {world : Collaborators} (c : Compiled.t) (p : Pipeline.t) :
  let uses := Pipeline.Uses p in
  let dirs := Compiled.PipelineDirs c in
  (uses = "" -> loadUses c p = Done p)
  /\ (uses <> "" ->
      (forall data, found uses dirs data ->
         loadUses c p = try (UnableToParsePipeline uses) (yaml_Unmarshal data p))
      /\ ((exists e, loadUses c p = Failed e) <->
          notFound uses dirs
          \/ exists data e, found uses dirs data /\ yaml_Unmarshal data p = Err e))
  /\ (forall fuel sm e,
        loadUses c p = Failed e -> compilePipeline (S fuel) c sm p = Failed e).
Proof.
  intros uses dirs. split; [|split].
  - intros Huses. unfold loadUses. fold uses. by rewrite decide_False by (by intros []).
  - intros Huses. split; [intros data; by apply loadUses_found|]. split.
    + intros [e He]. destruct (found_or_notFound uses dirs) as [[data Hdata]|Hnone];
        [|by left].
      right. exists data. rewrite (loadUses_found c p data) in He by done.
      destruct (yaml_Unmarshal data p) as [r|e'] eqn:Hyaml; [done|]. eauto.
    + intros [Hnone|(data & e & Hdata & Hyaml)].
      * destruct (loadUses_notFound c p Huses Hnone) as [e He]. eauto.
      * rewrite (loadUses_found c p data) by done. rewrite Hyaml. simpl. eauto.
  - intros fuel sm e He. simpl. by rewrite He.
Qed.

(** ** Overrides, defaults and inheritance *)

Lemma substituteStep_ignores_With {world : Collaborators} c sm uses with_ p w c' q with' mutated :
  substituteStep c sm uses with_ p = Done (c', q, with', mutated) ->
  substituteStep c sm uses with_ (Pipeline.set_With w p)
  = Done (c', Pipeline.set_With w q, with', mutated).
Proof.
  intros E. apply substituteStep_Done in E
    as (validated & refs & Hvalid & Hmutate & Htexts & Hrefs & ->).
  unfold substituteStep. simpl. rewrite Hvalid; simpl. rewrite Hmutate; simpl.
  rewrite mutateTexts_set_With, Htexts; simpl. by rewrite Hrefs.
Qed.

(** C6: when the template of a step has been decoded into it, what is
    validated against the inputs of the template, and then merged into the
    substitution table, is the [With] the step had before the template was
    loaded; the [With] that decoding left in the step plays no part: with any
    other table in its place validation and substitution give the same
    tables, and the compiled step keeps the cleaned captured overrides. *)
Theorem compilePipeline_validates_captured_With {world : Collaborators}
    (fuel : nat) (c : Compiled.t) (sm : SubstitutionMap.t)
    (p r : Pipeline.t) (c' : Compiled.t) (p' : Pipeline.t) :
  loadUses c p = Done r ->
  compilePipeline (S fuel) c sm p = Done (c', p') ->
  exists with' validated mutated c1 q,
    validateWith (Pipeline.With p) (Pipeline.Inputs r) = (with', Ok validated)
    /\ MutateWith sm validated = Ok mutated
    /\ Pipeline.With p' = cleanedWith with' mutated (Pipeline.Inputs r)
    /\ forall w,
         substituteStep c sm (Pipeline.Uses p) (Pipeline.With p) (Pipeline.set_With w r)
         = Done (c1, Pipeline.set_With w q, with', mutated).
Proof.
  intros Hload E.
  apply compilePipeline_Done in E
    as (r0 & c1 & q & with' & mutated & children & Hload' & Hsubst & _ & ->).
  rewrite Hload in Hload'. injection Hload' as <-.
  destruct (substituteStep_Done _ _ _ _ _ _ _ _ _ Hsubst)
    as (validated & refs & Hvalid & Hmutate & [Hinputs _]%mutateTexts_Done & _).
  exists with', validated, mutated, c1, q. repeat split; try done.
  - simpl. by rewrite Hinputs.
  - intros w. by apply substituteStep_ignores_With.
Qed.

Lemma cleanedWith_lookup with_ mutated inputs k v :
  cleanedWith with_ mutated inputs !! k = Some v ->
  is_Some (with_ !! k)
  /\ v = index mutated (inputsKey k)
  /\ v <> index (Input.Default <$> inputs) k.
Proof.
  unfold cleanedWith. rewrite map_lookup_imap.
  destruct (with_ !! k) as [v0|]; simpl; [|done].
  case_decide; [|done]. intros [= <-]. eauto.
Qed.

(** C7: the [With] of a compiled step holds, for each of its keys, the
    substituted value of that input, which is not the default the resolved
    step declares for the input (nor the empty string when it declares none),
    and the [Inputs] of a compiled step are empty. *)
Theorem compilePipeline_keeps_non_default_With {world : Collaborators}
    (fuel : nat) (c : Compiled.t) (sm : SubstitutionMap.t)
    (p : Pipeline.t) (c' : Compiled.t) (p' : Pipeline.t) :
  compilePipeline fuel c sm p = Done (c', p') ->
  Pipeline.Inputs p' = ∅
  /\ exists r c1 q with' mutated,
       loadUses c p = Done r
       /\ substituteStep c sm (Pipeline.Uses p) (Pipeline.With p) r
          = Done (c1, q, with', mutated)
       /\ forall k v, Pipeline.With p' !! k = Some v ->
            v = index mutated (inputsKey k)
            /\ v <> index (Input.Default <$> Pipeline.Inputs r) k
            /\ forall input, Pipeline.Inputs r !! k = Some input ->
                 v <> Input.Default input.
Proof.
  destruct fuel as [|fuel]; [done|]. intros E.
  apply compilePipeline_Done in E
    as (r & c1 & q & with' & mutated & children & Hload & Hsubst & _ & ->).
  split; [done|]. exists r, c1, q, with', mutated. repeat split; try done.
  all: destruct (substituteStep_Done _ _ _ _ _ _ _ _ _ Hsubst)
         as (_ & _ & _ & _ & [Hinputs _]%mutateTexts_Done & _);
       simpl in *; rewrite Hinputs in *;
       apply cleanedWith_lookup in H as (_ & Hv & Hne); try done.
  intros input Hinput. unfold index in Hne. rewrite lookup_fmap, Hinput in Hne. done.
Qed.

Lemma RightJoinMap_right (left right : gmap string string) k v :
  right !! k = Some v -> RightJoinMap left right !! k = Some v.
Proof. intros Hk. unfold RightJoinMap. by apply lookup_union_Some_l. Qed.

Lemma RightJoinMap_left (left right : gmap string string) k :
  right !! k = None -> RightJoinMap left right !! k = left !! k.
Proof. intros Hk. unfold RightJoinMap. by apply lookup_union_r. Qed.

(** C8: each nested step of a compiled step is the result of compiling, with
    the substitution context of the outer step, the nested step of the
    resolved outer step with its [With] replaced by the join of the outer
    step's mutated table and its own [With]; in the join an override of the
    nested step keeps its value and every other key has the value of the
    mutated table. *)
Theorem compilePipeline_nested_inherit {world : Collaborators}
    (fuel : nat) (c : Compiled.t) (sm : SubstitutionMap.t)
    (p : Pipeline.t) (c' : Compiled.t) (p' : Pipeline.t) :
  compilePipeline (S fuel) c sm p = Done (c', p') ->
  exists r c1 q with' mutated,
    loadUses c p = Done r
    /\ substituteStep c sm (Pipeline.Uses p) (Pipeline.With p) r
       = Done (c1, q, with', mutated)
    /\ length (Pipeline.Pipeline p') = length (Pipeline.Pipeline r)
    /\ forall i nested, Pipeline.Pipeline r !! i = Some nested ->
         let joined := RightJoinMap mutated (Pipeline.With nested) in
         (exists ci ci' nested',
            compilePipeline fuel ci sm (Pipeline.set_With joined nested)
            = Done (ci', nested')
            /\ Pipeline.Pipeline p' !! i = Some nested')
         /\ (forall k v, Pipeline.With nested !! k = Some v -> joined !! k = Some v)
         /\ (forall k, Pipeline.With nested !! k = None -> joined !! k = mutated !! k).
Proof.
  intros E.
  apply compilePipeline_Done in E
    as (r & c1 & q & with' & mutated & children & Hload & Hsubst & Hnested & ->).
  destruct (substituteStep_Done _ _ _ _ _ _ _ _ _ Hsubst)
    as (_ & _ & _ & _ & [_ Hchildren]%mutateTexts_Done & _).
  rewrite Hchildren in Hnested.
  exists r, c1, q, with', mutated. repeat split; try done.
  - simpl. by apply rangeIdx_length in Hnested.
  - destruct (rangeIdx_lookup _ _ _ _ _ _ Hnested i nested H)
      as (ci & ci' & nested' & Hi & Hlookup).
    apply wrap_Done in Hi. by exists ci, ci', nested'.
  - intros k v. apply RightJoinMap_right.
  - intros k. apply RightJoinMap_left.
Qed.

(** ** The two entry points *)

Lemma rangeIdx_cons_Done {St A} (body : nat -> St -> A -> outcome (St * A))
    i s x xs s' ys :
  rangeIdx body i s (x :: xs) = Done (s', ys) ->
  exists s1 y ys',
    body i s x = Done (s1, y)
    /\ rangeIdx body (S i) s1 xs = Done (s', ys')
    /\ ys = y :: ys'.
Proof.
  simpl. intros E.
  apply bind_Done in E as ([s1 y] & Ex & E).
  apply bind_Done in E as ([s2 ys'] & Exs & E). injection E as <- <-.
  by exists s1, y, ys'.
Qed.

Lemma rangeIdx_Forall2 {St A} (body : nat -> St -> A -> outcome (St * A))
    (R : A -> A -> Prop) :
  (forall i s x s' y, body i s x = Done (s', y) -> R x y) ->
  forall xs i s s' ys, rangeIdx body i s xs = Done (s', ys) -> Forall2 R xs ys.
Proof.
  intros Hbody. induction xs as [|x xs IH]; simpl; intros i s s' ys E.
  - injection E as <- <-. constructor.
  - apply rangeIdx_cons_Done in E as (s1 & y & ys' & Ex & Exs & ->).
    constructor; eauto.
Qed.

(** One iteration of the loop of [Build_Compile]: the shared accumulator
    gains what the subpackage's pipelines yield; the stored subpackage keeps
    its name and its condition text; its test environment, when it has a
    test, gains its name and then what its test pipelines yield. *)
Lemma Build_Compile_subpackage_Done {world : Collaborators} fuel dirs sm i c sp c' sp' :
  Compiled.PipelineDirs c = dirs ->
  Build_Compile_subpackage fuel dirs sm i c sp = Done (c', sp') ->
  (exists d, yields fuel dirs (Subpackage sm sp) (Subpackage.Pipeline sp) d
             /\ c' = extend d c)
  /\ Subpackage.Name sp' = Subpackage.Name sp
  /\ Subpackage.If sp' = Subpackage.If sp
  /\ match Subpackage.Test sp with
     | None => Subpackage.Test sp' = None
     | Some tst =>
         exists d tst',
           yields fuel dirs (Subpackage sm sp) (config.Test.Pipeline tst) d
           /\ Subpackage.Test sp' = Some tst'
           /\ ImageConfiguration.Packages (config.Test.Environment tst')
              = ImageConfiguration.Packages (config.Test.Environment tst)
                ++ Subpackage.Name sp :: d.1
     end.
Proof.
  intros Hdirs. unfold Build_Compile_subpackage. intros E.
  apply bind_Done in E as (spIf & _ & E).
  apply bind_Done in E as ([c1 pipeline] & Hbuild%wrap_Done & E).
  apply CompilePipelines_yields in Hbuild as (d & -> & Hd). rewrite Hdirs in Hd.
  destruct (Subpackage.Test sp) as [tst|].
  - apply bind_Done in E as ([tc testPipeline] & Htest%wrap_Done & E).
    injection E as <- <-.
    apply CompilePipelines_yields in Htest as (dt & -> & Hdt). simpl in Hdt.
    repeat split; eauto. exists dt. eexists. repeat split; [done|].
    unfold ImageConfiguration.appendPackages, ImageConfiguration.Packages. simpl.
    by rewrite <- app_assoc.
  - injection E as <- <-. repeat split; eauto.
Qed.

Lemma Build_Compile_subpackages_Done {world : Collaborators} fuel dirs sm sps :
  forall i c c' sps',
  Compiled.PipelineDirs c = dirs ->
  rangeIdx (Build_Compile_subpackage fuel dirs sm) i c sps = Done (c', sps') ->
  exists subs,
    Forall2 (fun sp d => yields fuel dirs (Subpackage sm sp) (Subpackage.Pipeline sp) d)
            sps subs
    /\ c' = extend (concat (fst <$> subs), concat (snd <$> subs)) c.
Proof.
  induction sps as [|sp sps IH]; intros i c c' sps' Hdirs E.
  - injection E as <- <-. exists []. split; [constructor|]. by rewrite extend_nil.
  - apply rangeIdx_cons_Done in E as (c1 & sp' & sps'' & Esp & Esps & ->).
    apply Build_Compile_subpackage_Done in Esp as ((d & Hd & ->) & _); [|done].
    apply IH in Esps as (subs & Hsubs & ->); [|done].
    exists (d :: subs). split; [by constructor|].
    rewrite extend_extend. by destruct d.
Qed.

(** C10: in [Build_Compile] one accumulator receives what the main pipelines
    yield and then, subpackage after subpackage, what each subpackage's build
    pipelines yield.  Its needs are what the build environment gains and its
    references are the references the build exposes: those of the build
    pipelines, in this order, and no others. *)
Theorem Build_Compile_shares_accumulator {world : Collaborators}
    (fuel : nat) (b b' : Build.t) :
  Build_Compile fuel b = Done b' ->
  let cfg := Build.Configuration b in
  let dirs := Build.PipelineDirs b in
  exists sm main subs,
    NewSubstitutionMap cfg (Build.Arch b) (BuildFlavor b) (Build.EnabledBuildOptions b)
    = Ok sm
    /\ yields fuel dirs sm (Configuration.Pipeline cfg) main
    /\ Forall2 (fun sp d => yields fuel dirs (Subpackage sm sp) (Subpackage.Pipeline sp) d)
               (Configuration.Subpackages cfg) subs
    /\ ImageConfiguration.Packages (Configuration.Environment (Build.Configuration b'))
       = ImageConfiguration.Packages (Configuration.Environment cfg)
         ++ main.1 ++ concat (fst <$> subs)
    /\ Build.externalRefs b' = main.2 ++ concat (snd <$> subs).
Proof.
  intros E cfg dirs. unfold Build_Compile in E. fold cfg dirs in E.
  apply bind_Done in E as (sm & Hsm%pass_Done & E).
  apply bind_Done in E as ([c1 pipeline] & Hmain%wrap_Done & E).
  apply bind_Done in E as ([c2 subpackages] & Hsubs & E).
  apply bind_Done in E as (test & _ & E). injection E as <-.
  apply CompilePipelines_yields in Hmain as (main & -> & Hmain).
  apply Build_Compile_subpackages_Done in Hsubs as (subs & Hsubs & ->); [|done].
  exists sm, main, subs. repeat split; try done.
Qed.

(** In [Build_Compile] the test environment of a subpackage that has a test
    gains the name of the subpackage and then what its test pipelines
    yield. *)
Lemma Build_Compile_subpackage_test_env {world : Collaborators}
    (fuel : nat) (b b' : Build.t) :
  Build_Compile fuel b = Done b' ->
  exists sm,
    NewSubstitutionMap (Build.Configuration b) (Build.Arch b) (BuildFlavor b)
                       (Build.EnabledBuildOptions b) = Ok sm
    /\ Forall2 (fun sp sp' =>
                  forall tst, Subpackage.Test sp = Some tst ->
                  exists d tst',
                    yields fuel (Build.PipelineDirs b) (Subpackage sm sp)
                           (config.Test.Pipeline tst) d
                    /\ Subpackage.Test sp' = Some tst'
                    /\ ImageConfiguration.Packages (config.Test.Environment tst')
                       = ImageConfiguration.Packages (config.Test.Environment tst)
                         ++ Subpackage.Name sp :: d.1)
               (Configuration.Subpackages (Build.Configuration b))
               (Configuration.Subpackages (Build.Configuration b')).
Proof.
  intros E. unfold Build_Compile in E.
  apply bind_Done in E as (sm & Hsm%pass_Done & E).
  apply bind_Done in E as ([c1 pipeline] & Hmain%wrap_Done & E).
  apply bind_Done in E as ([c2 subpackages] & Hsubs & E).
  apply bind_Done in E as (test & _ & E). injection E as <-.
  exists sm. split; [done|]. simpl.
  assert (Hdirs : forall sps i c c' sps',
            Compiled.PipelineDirs c = Build.PipelineDirs b ->
            rangeIdx (Build_Compile_subpackage fuel (Build.PipelineDirs b) sm) i c sps
            = Done (c', sps') ->
            Forall2 (fun sp sp' =>
                  forall tst, Subpackage.Test sp = Some tst ->
                  exists d tst',
                    yields fuel (Build.PipelineDirs b) (Subpackage sm sp)
                           (config.Test.Pipeline tst) d
                    /\ Subpackage.Test sp' = Some tst'
                    /\ ImageConfiguration.Packages (config.Test.Environment tst')
                       = ImageConfiguration.Packages (config.Test.Environment tst)
                         ++ Subpackage.Name sp :: d.1) sps sps').
  { induction sps as [|sp sps IH]; intros i c c' sps' Hc Eloop.
    - injection Eloop as <- <-. constructor.
    - apply rangeIdx_cons_Done in Eloop as (c3 & sp' & sps'' & Esp & Esps & ->).
      apply Build_Compile_subpackage_Done in Esp as ((d & _ & ->) & _ & _ & Htest); [|done].
      constructor; [|eapply IH; [|exact Esps]; done].
      intros tst Htst. by rewrite Htst in Htest. }
  apply CompilePipelines_yields in Hmain as (main & -> & _).
  eapply Hdirs; [|exact Hsubs]; done.
Qed.

(** One iteration of the loop of [Test_Compile]: what the subpackage's test
    pipelines yield goes to the accumulator [c] of the main test, and the
    subpackage's test environment gains the name of the subpackage alone. *)
Lemma Test_Compile_subpackage_Done {world : Collaborators}
    fuel dirs sm i c ignore sp c' ignore' sp' :
  Compiled.PipelineDirs c = dirs ->
  Test_Compile_subpackage fuel dirs sm i (c, ignore) sp = Done (c', ignore', sp') ->
  Subpackage.If sp' = Subpackage.If sp
  /\ exists tst tst' d,
       Subpackage.Test sp = Some tst
       /\ Subpackage.Test sp' = Some tst'
       /\ yields fuel dirs (Subpackage sm sp) (config.Test.Pipeline tst) d
       /\ c' = extend d c
       /\ ImageConfiguration.Packages (config.Test.Environment tst')
          = ImageConfiguration.Packages (config.Test.Environment tst)
            ++ [Subpackage.Name sp].
Proof.
  intros Hdirs. unfold Test_Compile_subpackage. intros E.
  apply bind_Done in E as (spIf & _ & E).
  apply bind_Done in E as ([ignore1 pipeline] & _ & E).
  apply bind_Done in E as (tst & Htst%deref_Done & E).
  apply bind_Done in E as ([c1 testPipeline] & Htest%wrap_Done & E).
  injection E as <- <- <-.
  apply CompilePipelines_yields in Htest as (d & -> & Hd). rewrite Hdirs in Hd.
  split; [done|]. exists tst. eexists. exists d. repeat split; try done.
  unfold ImageConfiguration.appendPackages, ImageConfiguration.Packages. simpl.
  by rewrite app_nil_r.
Qed.

Lemma Test_Compile_subpackages_Done {world : Collaborators} fuel dirs sm sps :
  forall i c ignore c' ignore' sps',
  Compiled.PipelineDirs c = dirs ->
  rangeIdx (Test_Compile_subpackage fuel dirs sm) i (c, ignore) sps
  = Done (c', ignore', sps') ->
  exists subs,
    Forall2 (fun sp d =>
               exists tst, Subpackage.Test sp = Some tst
                 /\ yields fuel dirs (Subpackage sm sp) (config.Test.Pipeline tst) d)
            sps subs
    /\ c' = extend (concat (fst <$> subs), concat (snd <$> subs)) c.
Proof.
  induction sps as [|sp sps IH]; intros i c ignore c' ignore' sps' Hdirs E.
  - injection E as <- <- <-. exists []. split; [constructor|]. by rewrite extend_nil.
  - apply rangeIdx_cons_Done in E as ([c1 ignore1] & sp' & sps'' & Esp & Esps & ->).
    apply Test_Compile_subpackage_Done in Esp
      as (_ & tst & tst' & d & Htst & _ & Hd & -> & _); [|done].
    apply IH in Esps as (subs & Hsubs & ->); [|done].
    exists (d :: subs). split; [constructor; eauto|].
    rewrite extend_extend. by destruct d.
Qed.

(** In [Test_Compile] the test environment of every subpackage gains the name
    of the subpackage and nothing else. *)
Lemma Test_Compile_subpackage_test_env {world : Collaborators}
    (fuel : nat) (t t' : Test.t) :
  Test_Compile fuel t = Done t' ->
  Forall2 (fun sp sp' =>
             exists tst tst',
               Subpackage.Test sp = Some tst
               /\ Subpackage.Test sp' = Some tst'
               /\ ImageConfiguration.Packages (config.Test.Environment tst')
                  = ImageConfiguration.Packages (config.Test.Environment tst)
                    ++ [Subpackage.Name sp])
          (Configuration.Subpackages (Test.Configuration t))
          (Configuration.Subpackages (Test.Configuration t')).
Proof.
  intros E. unfold Test_Compile in E.
  apply bind_Done in E as (sm & Hsm%pass_Done & E).
  apply bind_Done in E as ([ignore1 pipeline] & _ & E).
  apply bind_Done in E as (cfgTest & HcfgTest%deref_Done & E).
  apply bind_Done in E as ([c1 testPipeline] & Hmain%wrap_Done & E).
  apply bind_Done in E as ([[c2 ignore2] subpackages] & Hsubs & E).
  injection E as <-. simpl.
  apply CompilePipelines_yields in Hmain as (main & -> & _).
  assert (Hloop : forall sps i c ignore c' ignore' sps',
            Compiled.PipelineDirs c = Test.PipelineDirs t ->
            rangeIdx (Test_Compile_subpackage fuel (Test.PipelineDirs t) sm) i (c, ignore) sps
            = Done (c', ignore', sps') ->
            Forall2 (fun sp sp' =>
                       exists tst tst',
                         Subpackage.Test sp = Some tst
                         /\ Subpackage.Test sp' = Some tst'
                         /\ ImageConfiguration.Packages (config.Test.Environment tst')
                            = ImageConfiguration.Packages (config.Test.Environment tst)
                              ++ [Subpackage.Name sp]) sps sps').
  { induction sps as [|sp sps IH]; intros i c ignore c' ignore' sps' Hc Eloop.
    - injection Eloop as <- <- <-. constructor.
    - apply rangeIdx_cons_Done in Eloop as ([c3 ignore3] & sp' & sps'' & Esp & Esps & ->).
      apply Test_Compile_subpackage_Done in Esp
        as (_ & tst & tst' & d & Htst & Htst' & _ & -> & Hpkgs); [|done].
      constructor; [by exists tst, tst'|]. eapply IH; [|exact Esps]; done. }
  eapply Hloop; [|exact Hsubs]; done.
Qed.

(** In [Test_Compile] the environment of the main test gains the name of the
    package under test, what the main test pipelines yield, and then what the
    test pipelines of every subpackage yield. *)
Lemma Test_Compile_main_test_env {world : Collaborators}
    (fuel : nat) (t t' : Test.t) :
  Test_Compile fuel t = Done t' ->
  let cfg := Test.Configuration t in
  let dirs := Test.PipelineDirs t in
  let name := if decide (Test.Package t <> "") then Test.Package t
              else Package.Name (Configuration.Package cfg) in
  exists sm tst tst' main subs,
    NewSubstitutionMap cfg (Test.Arch t) "gnu" [] = Ok sm
    /\ Configuration.Test cfg = Some tst
    /\ Configuration.Test (Test.Configuration t') = Some tst'
    /\ yields fuel dirs sm (config.Test.Pipeline tst) main
    /\ Forall2 (fun sp d =>
                  exists sptst, Subpackage.Test sp = Some sptst
                    /\ yields fuel dirs (Subpackage sm sp) (config.Test.Pipeline sptst) d)
               (Configuration.Subpackages cfg) subs
    /\ ImageConfiguration.Packages (config.Test.Environment tst')
       = ImageConfiguration.Packages (config.Test.Environment tst)
         ++ name :: main.1 ++ concat (fst <$> subs).
Proof.
  intros E cfg dirs name. unfold Test_Compile in E. fold cfg dirs in E.
  apply bind_Done in E as (sm & Hsm%pass_Done & E).
  apply bind_Done in E as ([ignore1 pipeline] & _ & E).
  apply bind_Done in E as (cfgTest & HcfgTest%deref_Done & E).
  apply bind_Done in E as ([c1 testPipeline] & Hmain%wrap_Done & E).
  apply bind_Done in E as ([[c2 ignore2] subpackages] & Hsubs & E).
  injection E as <-. simpl.
  apply CompilePipelines_yields in Hmain as (main & -> & Hmain).
  apply Test_Compile_subpackages_Done in Hsubs as (subs & Hsubs & ->); [|done].
  exists sm, cfgTest. eexists. exists main, subs. repeat split; try done.
  unfold ImageConfiguration.appendPackages, ImageConfiguration.Packages. simpl.
  unfold name. case_decide; simpl; by rewrite <- !app_assoc.
Qed.

(** In both entry points the stored condition text of every subpackage is
    after the compilation what it was before. *)
Lemma Build_Compile_keeps_subpackage_If {world : Collaborators}
    (fuel : nat) (b b' : Build.t) :
  Build_Compile fuel b = Done b' ->
  Configuration.subpackageIfs (Build.Configuration b')
  = Configuration.subpackageIfs (Build.Configuration b).
Proof.
  intros E. unfold Build_Compile in E.
  apply bind_Done in E as (sm & Hsm%pass_Done & E).
  apply bind_Done in E as ([c1 pipeline] & Hmain%wrap_Done & E).
  apply bind_Done in E as ([c2 subpackages] & Hsubs & E).
  apply bind_Done in E as (test & _ & E). injection E as <-.
  unfold Configuration.subpackageIfs. simpl.
  apply (rangeIdx_Forall2 _ (fun sp sp' => Subpackage.If sp' = Subpackage.If sp)) in Hsubs.
  - induction Hsubs; simpl; [done|]. by f_equal.
  - intros i c sp c' sp' Esp. unfold Build_Compile_subpackage in Esp.
    apply bind_Done in Esp as (spIf & _ & Esp).
    apply bind_Done in Esp as ([c3 pl] & _ & Esp).
    destruct (Subpackage.Test sp); [|by injection Esp as <- <-].
    apply bind_Done in Esp as ([tc tp] & _ & Esp). by injection Esp as <- <-.
Qed.

Lemma Test_Compile_keeps_subpackage_If {world : Collaborators}
    (fuel : nat) (t t' : Test.t) :
  Test_Compile fuel t = Done t' ->
  Configuration.subpackageIfs (Test.Configuration t')
  = Configuration.subpackageIfs (Test.Configuration t).
Proof.
  intros E. unfold Test_Compile in E.
  apply bind_Done in E as (sm & Hsm%pass_Done & E).
  apply bind_Done in E as ([ignore1 pipeline] & _ & E).
  apply bind_Done in E as (cfgTest & HcfgTest%deref_Done & E).
  apply bind_Done in E as ([c1 testPipeline] & Hmain%wrap_Done & E).
  apply bind_Done in E as ([[c2 ignore2] subpackages] & Hsubs & E).
  injection E as <-. unfold Configuration.subpackageIfs. simpl.
  apply (rangeIdx_Forall2 _ (fun sp sp' => Subpackage.If sp' = Subpackage.If sp)) in Hsubs.
  - induction Hsubs; simpl; [done|]. by f_equal.
  - intros i [c ignore] sp [c' ignore'] sp' Esp. unfold Test_Compile_subpackage in Esp.
    apply bind_Done in Esp as (spIf & _ & Esp).
    apply bind_Done in Esp as ([ig pl] & _ & Esp).
    apply bind_Done in Esp as (tst & _ & Esp).
    apply bind_Done in Esp as ([tc tp] & _ & Esp). by injection Esp as <- <- <-.
Qed.

(** ** More on the aggregation pass *)

Lemma bind_Failed {A B} (m : outcome A) (k : A -> outcome B) (e : error) :
  bind m k = Failed e -> m = Failed e \/ exists a, m = Done a /\ k a = Failed e.
Proof.
  destruct m as [a|e0| |]; simpl; intros E; try discriminate.
  - right. by exists a.
  - left. by injection E as ->.
Qed.

Lemma appendNeeds_nil c : Compiled.appendNeeds [] c = c.
Proof. destruct c. unfold Compiled.appendNeeds. simpl. by rewrite app_nil_r. Qed.

Lemma appendNeeds_app a b c :
  Compiled.appendNeeds b (Compiled.appendNeeds a c) = Compiled.appendNeeds (a ++ b) c.
Proof. unfold Compiled.appendNeeds. simpl. by rewrite app_assoc. Qed.

Lemma enabledNeeds_unfold {world : Collaborators} p :
  enabledNeeds p =
  let taken := from_option Needs.Packages [] (Pipeline.Needs p)
               ++ flat_map enabledNeeds (Pipeline.Pipeline p) in
  if decide (Pipeline.If p <> "") then
    match cond_Evaluate (Pipeline.If p) with
    | Ok true => taken
    | _ => []
    end
  else taken.
Proof. by destruct p. Qed.

(** What a successful call did, by the condition of the step. *)
Lemma gatherDeps_Done {world : Collaborators} c p c' p' :
  gatherDeps c p = Done (c', p') ->
  (Pipeline.If p <> "" /\ cond_Evaluate (Pipeline.If p) = Ok false /\ c' = c /\ p' = p)
  \/ ((Pipeline.If p = "" \/ cond_Evaluate (Pipeline.If p) = Ok true)
      /\ p' = Pipeline.set_Needs None p
      /\ gatherNested
           (Compiled.appendNeeds (from_option Needs.Packages [] (Pipeline.Needs p)) c)
           (Pipeline.Pipeline p) = Done c').
Proof.
  intros E.
  destruct (decide (Pipeline.If p = "")) as [Hif|Hif].
  - right. rewrite gatherDeps_enabled in E by auto.
    apply bind_Done in E as (c1 & Hnested & E). injection E as <- <-. auto.
  - destruct (cond_Evaluate (Pipeline.If p)) as [[|]|e] eqn:Hev.
    + right. rewrite gatherDeps_enabled in E by auto.
      apply bind_Done in E as (c1 & Hnested & E). injection E as <- <-. auto.
    + left. rewrite gatherDeps_unfold, decide_True, Hev in E by done.
      injection E as <- <-. auto.
    + rewrite gatherDeps_unfold, decide_True, Hev in E by done. done.
Qed.

Lemma gatherNested_takes {world : Collaborators} (ps : list Pipeline.t) :
  Forall (fun p => forall c c' p', gatherDeps c p = Done (c', p') ->
                   c' = Compiled.appendNeeds (enabledNeeds p) c) ps ->
  forall c c', gatherNested c ps = Done c' ->
  c' = Compiled.appendNeeds (flat_map enabledNeeds ps) c.
Proof.
  induction 1 as [|p ps Hp _ IH]; simpl; intros c c' E.
  - injection E as <-. by rewrite appendNeeds_nil.
  - apply bind_Done in E as ([c1 p1] & Ep & E).
    apply Hp in Ep as ->. apply IH in E as ->. by rewrite appendNeeds_app.
Qed.

(** X1: a successful aggregation pass over a tree appends to the needs of the
    accumulator exactly the packages of the enabled steps of the tree, in
    depth-first order, each step before its nested steps; it leaves the lookup
    directories and the references of the accumulator as they were, and the
    step it was given either untouched or with its needs cleared. *)
Theorem gatherDeps_takes_enabledNeeds {world : Collaborators}
    (c : Compiled.t) (p : Pipeline.t) (c' : Compiled.t) (p' : Pipeline.t) :
  gatherDeps c p = Done (c', p') ->
  c' = Compiled.mk (Compiled.PipelineDirs c)
                   (Compiled.Needs c ++ enabledNeeds p)
                   (Compiled.ExternalRefs c)
  /\ (p' = p \/ p' = Pipeline.set_Needs None p).
Proof.
  intros E. split; [|apply gatherDeps_Done in E as [(_ & _ & _ & ->)|(_ & -> & _)]; auto].
  change (c' = Compiled.appendNeeds (enabledNeeds p) c).
  revert c c' p' E. induction p as [p IH] using Pipeline_nested_ind.
  intros c c' p' E. rewrite enabledNeeds_unfold. simpl.
  apply gatherDeps_Done in E as [(Hif & Hev & -> & _)|(Hen & _ & Hnested)].
  - by rewrite decide_True, Hev, appendNeeds_nil by done.
  - apply (gatherNested_takes _ IH) in Hnested as ->. rewrite appendNeeds_app.
    destruct Hen as [Hif|Hev].
    + by rewrite decide_False by (by intros []).
    + case_decide; by rewrite ?Hev.
Qed.

Lemma gatherDeps_takes_enabledNeeds_witness :
  exists c' p',
    gatherDeps (world := sample.world) (Compiled.fresh sample.dirs)
               (sample.step "all" ["make"] "" [sample.disabled; sample.configure])
    = Done (c', p')
    /\ Compiled.Needs c' = ["make"; "gcc"].
Proof.
  eexists _, _. split; [vm_compute; reflexivity|].
  edestruct (gatherDeps_takes_enabledNeeds (world := sample.world)
               (Compiled.fresh sample.dirs)
               (sample.step "all" ["make"] "" [sample.disabled; sample.configure]))
    as [-> _]; [vm_compute; reflexivity|].
  reflexivity.
Defined.

Lemma gatherNested_Failed {world : Collaborators} (ps : list Pipeline.t) (Q : error -> Prop) :
  Forall (fun p => forall c e, gatherDeps c p = Failed e -> Q e) ps ->
  forall c e, gatherNested c ps = Failed e -> Q e.
Proof.
  induction 1 as [|p ps Hp _ IH]; simpl; intros c e E; [done|].
  apply bind_Failed in E as [E|([c1 p1] & _ & E)]; eauto.
Qed.

Lemma gatherNested_settled {world : Collaborators} (ps : list Pipeline.t) :
  Forall (fun p => forall c, settled false (gatherDeps c p)) ps ->
  forall c, settled false (gatherNested c ps).
Proof.
  induction 1 as [|p ps Hp _ IH]; simpl; intros c; [done|].
  specialize (Hp c). destruct (gatherDeps c p) as [[c1 p1]| | |]; simpl; auto.
Qed.

Lemma gatherDeps_settled {world : Collaborators} p :
  forall c, settled false (gatherDeps c p).
Proof.
  induction p as [p IH] using Pipeline_nested_ind. intros c.
  assert (Hharvest : forall c, settled false (harvest c p)).
  { intros c0. unfold harvest.
    destruct (Pipeline.Needs p);
      match goal with
      | |- context [gatherNested ?a ?b] =>
          pose proof (gatherNested_settled _ IH a) as Hn;
          destruct (gatherNested a b); simpl in *; auto
      end. }
  rewrite gatherDeps_unfold. case_decide; [|apply Hharvest].
  destruct (cond_Evaluate (Pipeline.If p)) as [[|]|]; simpl; auto.
Qed.

(** X2: the aggregation pass always returns, with a result or with an error;
    its only error is that of a condition of the tree that failed to
    evaluate, wrapped with the text of that condition. *)
Theorem gatherDeps_fails_on_conditions_only {world : Collaborators}
    (c : Compiled.t) (p : Pipeline.t) :
  (exists c' p', gatherDeps c p = Done (c', p'))
  \/ (exists text e,
        text <> "" /\ cond_Evaluate text = Err e
        /\ gatherDeps c p = Failed (Wrap (EvaluatingConditional text) e)).
Proof.
  pose proof (gatherDeps_settled p c) as Hsettled.
  destruct (gatherDeps c p) as [[c' p']|e| |] eqn:E; simpl in Hsettled; try done.
  - left. eauto.
  - right. clear Hsettled. revert c e E.
    induction p as [p IH] using Pipeline_nested_ind. intros c e E.
    assert (Hharvest : forall c e, harvest c p = Failed e ->
              exists text e', text <> "" /\ cond_Evaluate text = Err e'
                /\ Failed e = Failed (Wrap (EvaluatingConditional text) e')
                   :> outcome (Compiled.t * Pipeline.t)).
    { intros c0 e0 E0. unfold harvest in E0.
      assert (Hnested : forall a, gatherNested a (Pipeline.Pipeline p) = Failed e0 ->
                exists text e', text <> "" /\ cond_Evaluate text = Err e'
                  /\ Failed e0 = Failed (Wrap (EvaluatingConditional text) e')
                     :> outcome (Compiled.t * Pipeline.t)).
      { intros a. apply (gatherNested_Failed _ (fun e0 => exists text e',
            text <> "" /\ cond_Evaluate text = Err e'
            /\ Failed e0 = Failed (Wrap (EvaluatingConditional text) e')
               :> outcome (Compiled.t * Pipeline.t))).
        eapply Forall_impl; [exact IH|]. simpl. intros q Hq c1 e1 E1.
        destruct (Hq c1 e1 E1) as (text & e' & ? & ? & ?). eauto. }
      destruct (Pipeline.Needs p);
        apply bind_Failed in E0 as [E0|(c1 & _ & E0)]; try done; eauto. }
    rewrite gatherDeps_unfold in E. case_decide; [|eauto].
    destruct (cond_Evaluate (Pipeline.If p)) as [[|]|e'] eqn:Hev; try done; [eauto|].
    injection E as <-. exists (Pipeline.If p), e'. auto.
Qed.

(** ** More on the compilation of pipelines *)

Lemma rangeIdx_Failed {St A} (body : nat -> St -> A -> outcome (St * A)) (xs : list A) :
  forall i s e, rangeIdx body i s xs = Failed e ->
  exists j x sj, xs !! j = Some x /\ body (i + j) sj x = Failed e.
Proof.
  induction xs as [|x xs IH]; simpl; intros i s e E; [done|].
  apply bind_Failed in E as [E|([s1 y] & Ex & E)].
  - exists 0, x, s. by rewrite Nat.add_0_r.
  - apply bind_Failed in E as [E|([s2 ys] & _ & E)]; [|done].
    apply IH in E as (j & x' & sj & Hj & Ej).
    exists (S j), x', sj. split; [done|]. by replace (i + S j) with (S i + j) by lia.
Qed.

Lemma wrap_Failed {A} (ctx : context) (m : outcome A) (e : error) :
  wrap ctx m = Failed e -> exists e', m = Failed e' /\ e = Wrap ctx e'.
Proof. destruct m; simpl; intros E; try discriminate. injection E as <-. eauto. Qed.

Lemma try_Failed {A} (ctx : context) (r : result A) (e : error) :
  try ctx r = Failed e -> exists e', r = Err e' /\ e = Wrap ctx e'.
Proof. destruct r; simpl; intros E; try discriminate. injection E as <-. eauto. Qed.

(** X3: a failed [CompilePipelines] names the position of the pipeline it
    failed on: its error is that of the compilation of pipeline [i], wrapped
    as compiling Pipeline[i], or that of the aggregation pass over it, wrapped
    as gathering deps for Pipeline[i], for an [i] within the list. *)
Theorem CompilePipelines_fails_at_position {world : Collaborators}
    (fuel : nat) (c : Compiled.t) (sm : SubstitutionMap.t)
    (pipelines : list Pipeline.t) (e : error) :
  CompilePipelines fuel c sm pipelines = Failed e ->
  exists i p ci,
    pipelines !! i = Some p
    /\ ((exists e', compilePipeline fuel ci sm p = Failed e'
                    /\ e = Wrap (CompilingPipelineAt i) e')
        \/ (exists ci' p' e', compilePipeline fuel ci sm p = Done (ci', p')
                              /\ gatherDeps ci' p' = Failed e'
                              /\ e = Wrap (GatheringDepsAt i) e')).
Proof.
  unfold CompilePipelines. intros E.
  apply rangeIdx_Failed in E as (i & p & ci & Hi & E). simpl in E.
  exists i, p, ci. split; [done|].
  apply bind_Failed in E as [E|([ci' p'] & Ecompile%wrap_Done & E)].
  - left. apply wrap_Failed in E as (e' & ? & ?). eauto.
  - right. apply wrap_Failed in E as (e' & ? & ?). exists ci', p', e'. auto.
Qed.

Lemma CompilePipelines_fails_at_position_witness :
  let pipelines := [sample.configure; sample.usesStep "fetch" ∅] in
  let e := Wrap (CompilingPipelineAt 1)
             (Wrap UnableToValidateWith (Foreign "required input for pipeline is missing")) in
  exists i p ci,
    pipelines !! i = Some p
    /\ ((exists e', compilePipeline (world := sample.world) 1 ci sample.sm p = Failed e'
                    /\ e = Wrap (CompilingPipelineAt i) e')
        \/ (exists ci' p' e', compilePipeline (world := sample.world) 1 ci sample.sm p
                              = Done (ci', p')
                              /\ gatherDeps (world := sample.world) ci' p' = Failed e'
                              /\ e = Wrap (GatheringDepsAt i) e')).
Proof.
  intros pipelines e.
  apply (CompilePipelines_fails_at_position (world := sample.world) 1
           (Compiled.fresh sample.dirs) sample.sm pipelines e).
  vm_compute; reflexivity.
Defined.

(** X4: what [CompilePipelines] returns and what it appends do not depend on
    what the accumulator already holds: into any accumulator with the same
    lookup directories the same pipelines compile to the same steps and
    append the same needs and references, after those already there. *)
Theorem CompilePipelines_appends_independently {world : Collaborators}
    (fuel : nat) (c c0 : Compiled.t) (sm : SubstitutionMap.t)
    (pipelines : list Pipeline.t) (c' : Compiled.t) (compiled : list Pipeline.t) :
  CompilePipelines fuel c sm pipelines = Done (c', compiled) ->
  Compiled.PipelineDirs c0 = Compiled.PipelineDirs c ->
  exists needs refs,
    c' = Compiled.mk (Compiled.PipelineDirs c) (Compiled.Needs c ++ needs)
                     (Compiled.ExternalRefs c ++ refs)
    /\ CompilePipelines fuel c0 sm pipelines
       = Done (Compiled.mk (Compiled.PipelineDirs c0) (Compiled.Needs c0 ++ needs)
                           (Compiled.ExternalRefs c0 ++ refs),
               compiled).
Proof.
  intros E Hdirs.
  destruct (framed_at _ _ _ _ _ (CompilePipelines_framed fuel sm) E) as ([needs refs] & -> & Hd).
  exists needs, refs. split; [done|]. by rewrite Hd.
Qed.

Lemma CompilePipelines_appends_independently_witness :
  exists c' compiled,
    CompilePipelines (world := sample.world) 2 (Compiled.fresh sample.dirs) sample.sm
      [sample.build] = Done (c', compiled)
    /\ CompilePipelines (world := sample.world) 2
         (Compiled.mk sample.dirs ["bash"] []) sample.sm [sample.build]
       = Done (Compiled.mk sample.dirs ["bash"; "make"; "gcc"] [], compiled).
Proof.
  eexists _, _. split; [vm_compute; reflexivity|].
  edestruct (CompilePipelines_appends_independently (world := sample.world) 2
               (Compiled.fresh sample.dirs) (Compiled.mk sample.dirs ["bash"] [])
               sample.sm [sample.build])
    as (needs & refs & Hc & ->); [vm_compute; reflexivity|reflexivity|].
  injection Hc as <- <-. reflexivity.
Defined.

(** X5: [CompilePipelines] returns as many pipelines as it was given; each
    has no inputs left, and has its needs cleared unless its condition
    evaluates to false. *)
Theorem CompilePipelines_top_level_harvested {world : Collaborators}
    (fuel : nat) (c : Compiled.t) (sm : SubstitutionMap.t)
    (pipelines : list Pipeline.t) (c' : Compiled.t) (compiled : list Pipeline.t) :
  CompilePipelines fuel c sm pipelines = Done (c', compiled) ->
  length compiled = length pipelines
  /\ Forall (fun p => Pipeline.Inputs p = ∅
                      /\ (Pipeline.Needs p = None
                          \/ (Pipeline.If p <> ""
                              /\ cond_Evaluate (Pipeline.If p) = Ok false)))
            compiled.
Proof.
  unfold CompilePipelines. intros E. split; [by apply rangeIdx_length in E|].
  apply (rangeIdx_Forall2 _ (fun _ p =>
           Pipeline.Inputs p = ∅
           /\ (Pipeline.Needs p = None
               \/ (Pipeline.If p <> "" /\ cond_Evaluate (Pipeline.If p) = Ok false)))) in E.
  - clear -E. induction E; constructor; auto.
  - intros i ci p ci' p' Ebody. simpl in Ebody.
    apply bind_Done in Ebody as ([c1 p1] & Ecompile%wrap_Done & Egather%wrap_Done).
    assert (Hinputs : Pipeline.Inputs p1 = ∅).
    { destruct fuel as [|fuel]; [done|].
      by apply compilePipeline_Done in Ecompile as (? & ? & ? & ? & ? & ? & _ & _ & _ & ->). }
    apply gatherDeps_Done in Egather as [(Hif & Hev & _ & ->)|(_ & -> & _)]; auto.
Qed.

Lemma CompilePipelines_top_level_harvested_witness :
  exists c' compiled,
    CompilePipelines (world := sample.world) 2 (Compiled.fresh sample.dirs) sample.sm
      [sample.build; sample.disabled] = Done (c', compiled)
    /\ length compiled = 2
    /\ Pipeline.Needs <$> compiled = [None; Some (Needs.mk ["musl-dev"])].
Proof.
  eexists _, _. split; [vm_compute; reflexivity|].
  split; [|reflexivity].
  eapply (CompilePipelines_top_level_harvested (world := sample.world) 2
            (Compiled.fresh sample.dirs) sample.sm [sample.build; sample.disabled]).
  vm_compute; reflexivity.
Defined.

(** X6: a template that cannot be loaded is reported with the error of the
    embedded catalog, wrapped as unable to load pipeline, and a template that
    does not decode with the error of the decoder, wrapped as unable to parse
    pipeline: neither the error of a lookup directory nor the error set up
    on line 208 is ever returned. *)
Theorem loadUses_error {world : Collaborators}
    (c : Compiled.t) (p : Pipeline.t) (e : error) :
  loadUses c p = Failed e ->
  Pipeline.Uses p <> ""
  /\ ((exists e', f_ReadFile ("pipelines/" +:+ Pipeline.Uses p +:+ ".yaml") = Err e'
                  /\ e = Wrap UnableToLoadPipeline e')
      \/ (exists data e', yaml_Unmarshal data p = Err e'
                          /\ e = Wrap (UnableToParsePipeline (Pipeline.Uses p)) e')).
Proof.
  unfold loadUses. case_decide; [|done]. intros E. split; [done|].
  apply bind_Failed in E as [E|(data & _ & E)].
  - left. destruct (readFromDirs _ _ _); [done|].
    apply try_Failed in E as (e' & ? & ?). eauto.
  - right. apply try_Failed in E as (e' & ? & ?). eauto.
Qed.

Lemma loadUses_error_witness :
  let p := sample.usesStep "nope" ∅ in
  let e := Wrap UnableToLoadPipeline (Foreign "open: file does not exist") in
  Pipeline.Uses p <> ""
  /\ ((exists e', f_ReadFile (Collaborators := sample.world)
                    ("pipelines/" +:+ Pipeline.Uses p +:+ ".yaml") = Err e'
                  /\ e = Wrap UnableToLoadPipeline e')
      \/ (exists data e', yaml_Unmarshal (Collaborators := sample.world) data p = Err e'
                          /\ e = Wrap (UnableToParsePipeline (Pipeline.Uses p)) e')).
Proof.
  intros p e.
  apply (loadUses_error (world := sample.world) (Compiled.fresh sample.dirs) p e).
  vm_compute; reflexivity.
Defined.







Lemma rangeStrings_length f ctx xs ys :
  rangeStrings f ctx xs = Done ys -> length ys = length xs.
Proof.
  revert ys. induction xs as [|x xs IH]; simpl; intros ys E.
  - by injection E as <-.
  - apply bind_Done in E as (x' & _ & E). apply bind_Done in E as (ys' & Eys & E).
    injection E as <-. simpl. f_equal. eauto.
Qed.

Lemma mutateTexts_shape {world : Collaborators} mutated p q :
  mutateTexts mutated p = Done q ->
  Pipeline.Name q = Pipeline.Name p
  /\ Pipeline.Uses q = Pipeline.Uses p
  /\ (Pipeline.If p = "" -> Pipeline.If q = "")
  /\ (Pipeline.WorkDir p = "" -> Pipeline.WorkDir q = "")
  /\ (length ∘ Needs.Packages) <$> Pipeline.Needs q
     = (length ∘ Needs.Packages) <$> Pipeline.Needs p.
Proof.
  unfold mutateTexts. intros E.
  apply bind_Done in E as (p1 & E1 & E). apply bind_Done in E as (p2 & E2 & E).
  apply bind_Done in E as (runs & _ & E).
  assert (H1 : Pipeline.Name p1 = Pipeline.Name p /\ Pipeline.Uses p1 = Pipeline.Uses p
               /\ Pipeline.If p1 = Pipeline.If p /\ Pipeline.WorkDir p1 = Pipeline.WorkDir p
               /\ (length ∘ Needs.Packages) <$> Pipeline.Needs p1
                  = (length ∘ Needs.Packages) <$> Pipeline.Needs p).
  { clear E E2. destruct (Pipeline.Needs p) as [needs|] eqn:Hneeds.
    - apply bind_Done in E1 as (pkgs & Hpkgs%rangeStrings_length & E1).
      injection E1 as <-. simpl. by rewrite Hpkgs.
    - injection E1 as <-. by rewrite Hneeds. }
  destruct H1 as (<- & <- & <- & <- & <-).
  assert (H2 : Pipeline.Name p2 = Pipeline.Name p1 /\ Pipeline.Uses p2 = Pipeline.Uses p1
               /\ Pipeline.If p2 = Pipeline.If p1
               /\ (Pipeline.WorkDir p1 = "" -> Pipeline.WorkDir p2 = "")
               /\ Pipeline.Needs p2 = Pipeline.Needs p1).
  { clear E E1. case_decide as Hdir.
    - apply bind_Done in E2 as (d & _ & E2). injection E2 as <-. by repeat split.
    - injection E2 as <-. repeat split; try done. }
  destruct H2 as (<- & <- & <- & Hdir & <-). clear E1 E2.
  case_decide as Hif.
  - apply bind_Done in E as (cnd & _ & E). injection E as <-. by repeat split.
  - injection E as <-. simpl in *. repeat split; try done.
Qed.

(** X8: the compilation of a step keeps the shape it has once its template
    is loaded: its name and template reference, the number of its nested
    steps and of its needs (none stays none); a step without a condition
    stays without one and a step without a working directory stays without
    one. *)
Theorem compilePipeline_keeps_shape {world : Collaborators}
    (fuel : nat) (c : Compiled.t) (sm : SubstitutionMap.t)
    (p : Pipeline.t) (c' : Compiled.t) (p' : Pipeline.t) :
  compilePipeline fuel c sm p = Done (c', p') ->
  exists r,
    loadUses c p = Done r
    /\ Pipeline.Name p' = Pipeline.Name r
    /\ Pipeline.Uses p' = Pipeline.Uses r
    /\ length (Pipeline.Pipeline p') = length (Pipeline.Pipeline r)
    /\ (length ∘ Needs.Packages) <$> Pipeline.Needs p'
       = (length ∘ Needs.Packages) <$> Pipeline.Needs r
    /\ (Pipeline.If r = "" -> Pipeline.If p' = "")
    /\ (Pipeline.WorkDir r = "" -> Pipeline.WorkDir p' = "").
Proof.
  destruct fuel as [|fuel]; [done|]. intros E.
  apply compilePipeline_Done in E
    as (r & c1 & q & with' & mutated & children & Hload & Hsubst & Hnested & ->).
  apply substituteStep_Done in Hsubst as (_ & _ & _ & _ & Htexts & _).
  destruct (mutateTexts_Done _ _ _ Htexts) as [_ Hchildren].
  apply mutateTexts_shape in Htexts as (Hname & Huses & Hif & Hdir & Hneeds).
  apply rangeIdx_length in Hnested.
  exists r. simpl. rewrite <- Hchildren. by repeat split.
Qed.

Lemma compilePipeline_keeps_shape_witness :
  let c := Compiled.fresh sample.dirs in
  exists c' p',
    compilePipeline (world := sample.world) 2 c sample.sm sample.build = Done (c', p')
    /\ exists r,
         loadUses (world := sample.world) c sample.build = Done r
         /\ Pipeline.Name p' = Pipeline.Name r
         /\ Pipeline.Uses p' = Pipeline.Uses r
         /\ length (Pipeline.Pipeline p') = length (Pipeline.Pipeline r)
         /\ (length ∘ Needs.Packages) <$> Pipeline.Needs p'
            = (length ∘ Needs.Packages) <$> Pipeline.Needs r
         /\ (Pipeline.If r = "" -> Pipeline.If p' = "")
         /\ (Pipeline.WorkDir r = "" -> Pipeline.WorkDir p' = "").
Proof.
  intros c. eexists _, _. split; [vm_compute; reflexivity|].
  eapply (compilePipeline_keeps_shape (world := sample.world) 2 c sample.sm sample.build).
  vm_compute; reflexivity.
Defined.

(** ** Fuel *)














(** ** Termination and panics *)

Lemma settled_weaken {A} (fuel : bool) (m : outcome A) :
  settled false m -> settled fuel m.
Proof. by destruct m. Qed.

Lemma settled_bind {A B} (fuel : bool) (m : outcome A) (k : A -> outcome B) :
  settled fuel m -> (forall a, m = Done a -> settled fuel (k a)) ->
  settled fuel (bind m k).
Proof. destruct m; simpl; auto. Qed.

Lemma settled_try {A} ctx (r : result A) : settled false (try ctx r).
Proof. by destruct r. Qed.

Lemma settled_pass {A} (r : result A) : settled false (pass r).
Proof. by destruct r. Qed.

Lemma settled_wrap {A} (fuel : bool) ctx (m : outcome A) :
  settled fuel m -> settled fuel (wrap ctx m).
Proof. by destruct m. Qed.

Lemma settled_rangeIdx {St A} (fuel : bool)
    (body : nat -> St -> A -> outcome (St * A)) (xs : list A) :
  (forall i s x, x ∈ xs -> settled fuel (body i s x)) ->
  forall i s, settled fuel (rangeIdx body i s xs).
Proof.
  induction xs as [|x xs IH]; simpl; intros Hbody i s; [done|].
  apply settled_bind; [apply Hbody; left|]. intros [s1 y] _.
  apply settled_bind; [apply IH; intros; apply Hbody; by right|].
  by intros [s2 ys] _.
Qed.

Lemma settled_rangeStrings f ctx xs : settled false (rangeStrings f ctx xs).
Proof.
  induction xs as [|x xs IH]; simpl; [done|].
  apply settled_bind; [apply settled_try|]. intros x' _.
  apply settled_bind; [apply IH|]. by intros.
Qed.

Lemma settled_loadUses {world : Collaborators} c p : settled false (loadUses c p).
Proof.
  unfold loadUses. case_decide; [|done].
  apply settled_bind; [|intros; apply settled_try].
  destruct (readFromDirs _ _ _); [done|apply settled_try].
Qed.

Lemma settled_mutateTexts {world : Collaborators} mutated p :
  settled false (mutateTexts mutated p).
Proof.
  unfold mutateTexts.
  apply settled_bind.
  { destruct (Pipeline.Needs p); [|done].
    apply settled_bind; [apply settled_rangeStrings|]. by intros. }
  intros p1 _. apply settled_bind.
  { case_decide; [|done]. apply settled_bind; [apply settled_try|]. by intros. }
  intros p2 _. apply settled_bind; [apply settled_try|]. intros runs _.
  case_decide; [|done]. apply settled_bind; [apply settled_try|]. by intros.
Qed.

Lemma settled_substituteStep {world : Collaborators} c sm uses with_ p :
  settled false (substituteStep c sm uses with_ p).
Proof.
  unfold substituteStep. destruct (validateWith with_ (Pipeline.Inputs p)) as [w validation].
  apply settled_bind; [apply settled_try|]. intros validated _.
  apply settled_bind; [apply settled_try|]. intros mutated _.
  apply settled_bind; [apply settled_mutateTexts|]. intros q _.
  apply settled_bind; [apply settled_try|]. by intros.
Qed.

Lemma literalWithin_set_With {world : Collaborators} n w p :
  literalWithin n (Pipeline.set_With w p) = literalWithin n p.
Proof. by destruct n. Qed.

Lemma loadUses_literal {world : Collaborators} c p :
  Pipeline.Uses p = "" -> loadUses c p = Done p.
Proof. intros Huses. unfold loadUses. by rewrite decide_False by (by intros []). Qed.

Lemma settled_compilePipeline {world : Collaborators} (b : bool) fuel :
  forall c sm p,
  (b = false -> literalWithin fuel p = true) ->
  settled b (compilePipeline fuel c sm p).
Proof.
  induction fuel as [|fuel IH]; intros c sm p Hliteral.
  { destruct b; [done|]. by specialize (Hliteral eq_refl). }
  change (compilePipeline (S fuel) c sm p) with
    (let* r := loadUses c p in
     let* (c1, q, with', mutated) :=
       substituteStep c sm (Pipeline.Uses p) (Pipeline.With p) r in
     let* (c2, children) :=
       rangeIdx (compileNested fuel sm mutated) 0 c1 (Pipeline.Pipeline q) in
     Done (c2, Pipeline.set_Inputs ∅
                 (Pipeline.set_With (cleanedWith with' mutated
                                       (Pipeline.Inputs (Pipeline.set_Pipeline children q)))
                    (Pipeline.set_Pipeline children q)))).
  apply settled_bind; [apply settled_weaken, settled_loadUses|]. intros r Hload.
  apply settled_bind; [apply settled_weaken, settled_substituteStep|].
  intros [[[c1 q] with'] mutated] Hsubst.
  apply settled_bind; [|by intros [c2 children] _].
  apply settled_rangeIdx. intros i ci x Hx. apply settled_wrap, IH.
  intros ->. specialize (Hliteral eq_refl). simpl in Hliteral.
  apply andb_prop in Hliteral as [Huses%bool_decide_eq_true Hnested].
  rewrite loadUses_literal in Hload by done. injection Hload as <-.
  apply substituteStep_Done in Hsubst as (_ & _ & _ & _ & [_ Hchildren]%mutateTexts_Done & _).
  rewrite Hchildren in Hx. rewrite literalWithin_set_With.
  rewrite forallb_forall in Hnested. apply Hnested. by apply list_elem_of_In.
Qed.

Lemma settled_CompilePipelines {world : Collaborators} (b : bool) fuel c sm ps :
  (b = false -> forallb (literalWithin fuel) ps = true) ->
  settled b (CompilePipelines fuel c sm ps).
Proof.
  intros Hliteral. apply settled_rangeIdx. intros i ci p Hp.
  apply settled_bind.
  - apply settled_wrap, settled_compilePipeline. intros ->.
    specialize (Hliteral eq_refl). rewrite forallb_forall in Hliteral.
    apply Hliteral. by apply list_elem_of_In.
  - intros [c1 p1] _. apply settled_wrap, settled_weaken, gatherDeps_settled.
Qed.

(** X11: pipelines written out in full, whose steps use no template and are
    nested less than [fuel] deep, always compile to a result or to an error:
    the recursion ends, and nothing panics. *)
Theorem CompilePipelines_literal_terminates {world : Collaborators}
    (fuel : nat) (c : Compiled.t) (sm : SubstitutionMap.t)
    (pipelines : list Pipeline.t) :
  forallb (literalWithin fuel) pipelines = true ->
  (exists c' compiled, CompilePipelines fuel c sm pipelines = Done (c', compiled))
  \/ (exists e, CompilePipelines fuel c sm pipelines = Failed e).
Proof.
  intros Hliteral.
  pose proof (settled_CompilePipelines false fuel c sm pipelines (fun _ => Hliteral)) as H.
  destruct (CompilePipelines fuel c sm pipelines) as [[c' compiled]|e| |]; simpl in H;
    try done; eauto.
Qed.

Lemma CompilePipelines_literal_terminates_witness :
  let c := Compiled.fresh sample.dirs in
  let pipelines := [sample.build; sample.disabled] in
  (exists c' compiled,
     CompilePipelines (world := sample.world) 2 c sample.sm pipelines = Done (c', compiled))
  \/ (exists e, CompilePipelines (world := sample.world) 2 c sample.sm pipelines = Failed e).
Proof.
  intros c pipelines.
  apply (CompilePipelines_literal_terminates (world := sample.world) 2 c sample.sm pipelines).
  reflexivity.
Defined.

(** X12: [Build_Compile] never panics: every pointer it follows is checked
    for nil first. *)
Theorem Build_Compile_never_panics {world : Collaborators} (fuel : nat) (b : Build.t) :
  Build_Compile fuel b <> Panic.
Proof.
  assert (H : settled true (Build_Compile fuel b)); [|by destruct (Build_Compile fuel b)].
  unfold Build_Compile.
  apply settled_bind; [apply settled_weaken, settled_pass|]. intros sm _.
  apply settled_bind; [by apply settled_wrap, settled_CompilePipelines|].
  intros [c pipeline] _. apply settled_bind.
  - apply settled_rangeIdx. intros i ci sp _. unfold Build_Compile_subpackage.
    apply settled_bind.
    { unfold mutateSubpackageIf. case_decide; [apply settled_weaken, settled_try|done]. }
    intros spIf _.
    apply settled_bind; [by apply settled_wrap, settled_CompilePipelines|].
    intros [c1 pl] _. destruct (Subpackage.Test sp); [|done].
    apply settled_bind; [by apply settled_wrap, settled_CompilePipelines|].
    by intros [tc tp] _.
  - intros [c2 subpackages] _. apply settled_bind; [|by intros].
    destruct (Configuration.Test (Build.Configuration b)); [|done].
    apply settled_bind; [by apply settled_wrap, settled_CompilePipelines|].
    by intros [tc tp] _.
Qed.

(** ** More on the two entry points *)

(** X13: the identity of a step is never empty: it is the name of the step,
    or else its template reference, or else the placeholder. *)
Theorem identity_never_empty (p : Pipeline.t) :
  identity p <> ""
  /\ (Pipeline.Name p <> "" -> identity p = Pipeline.Name p)
  /\ (Pipeline.Name p = "" -> Pipeline.Uses p <> "" -> identity p = Pipeline.Uses p)
  /\ (Pipeline.Name p = "" -> Pipeline.Uses p = "" -> identity p = "???").
Proof.
  unfold identity. repeat split; intros; repeat case_decide; try done; congruence.
Qed.

Lemma Build_Compile_subpackage_test {world : Collaborators} fuel dirs sm i c sp c' sp' :
  Build_Compile_subpackage fuel dirs sm i c sp = Done (c', sp') ->
  Subpackage.Name sp' = Subpackage.Name sp
  /\ match Subpackage.Test sp with
     | None => Subpackage.Test sp' = None
     | Some tst =>
         exists d tst',
           yields fuel dirs (Subpackage sm sp) (config.Test.Pipeline tst) d
           /\ Subpackage.Test sp' = Some tst'
           /\ ImageConfiguration.Packages (config.Test.Environment tst')
              = ImageConfiguration.Packages (config.Test.Environment tst)
                ++ Subpackage.Name sp :: d.1
     end.
Proof.
  unfold Build_Compile_subpackage. intros E.
  apply bind_Done in E as (spIf & _ & E).
  apply bind_Done in E as ([c1 pipeline] & _ & E).
  destruct (Subpackage.Test sp) as [tst|].
  - apply bind_Done in E as ([tc testPipeline] & Htest%wrap_Done & E).
    injection E as <- <-.
    apply CompilePipelines_yields in Htest as (dt & -> & Hdt). simpl in Hdt.
    split; [done|]. exists dt. eexists. repeat split; [done|].
    unfold ImageConfiguration.appendPackages, ImageConfiguration.Packages. simpl.
    by rewrite <- app_assoc.
  - by injection E as <- <-.
Qed.

(** X14: after [Build_Compile] the configuration has the same subpackages,
    under the same names; a subpackage without a test is still without one,
    and the test environment of every other has gained the name of the
    subpackage and then what its test pipelines yield, compiled on their
    own. *)
Theorem Build_Compile_subpackage_tests {world : Collaborators}
    (fuel : nat) (b b' : Build.t) :
  Build_Compile fuel b = Done b' ->
  exists sm,
    NewSubstitutionMap (Build.Configuration b) (Build.Arch b) (BuildFlavor b)
                       (Build.EnabledBuildOptions b) = Ok sm
    /\ Forall2 (fun sp sp' =>
                  Subpackage.Name sp' = Subpackage.Name sp
                  /\ match Subpackage.Test sp with
                     | None => Subpackage.Test sp' = None
                     | Some tst =>
                         exists d tst',
                           yields fuel (Build.PipelineDirs b) (Subpackage sm sp)
                                  (config.Test.Pipeline tst) d
                           /\ Subpackage.Test sp' = Some tst'
                           /\ ImageConfiguration.Packages (config.Test.Environment tst')
                              = ImageConfiguration.Packages (config.Test.Environment tst)
                                ++ Subpackage.Name sp :: d.1
                     end)
               (Configuration.Subpackages (Build.Configuration b))
               (Configuration.Subpackages (Build.Configuration b')).
Proof.
  intros E. unfold Build_Compile in E.
  apply bind_Done in E as (sm & Hsm%pass_Done & E).
  apply bind_Done in E as ([c1 pipeline] & _ & E).
  apply bind_Done in E as ([c2 subpackages] & Hsubs & E).
  apply bind_Done in E as (test & _ & E). injection E as <-.
  exists sm. split; [done|]. simpl.
  eapply rangeIdx_Forall2; [|exact Hsubs].
  intros i c sp c' sp'. apply Build_Compile_subpackage_test.
Qed.

Lemma Build_Compile_subpackage_tests_witness :
  let b := sample.helloBuild in
  exists b',
    Build_Compile (world := sample.world) 2 b = Done b'
    /\ Configuration.subpackageTestPackages (Build.Configuration b')
       = [Some ["busybox"; "hello-dev"; "pkgconf"]]
    /\ exists sm,
         NewSubstitutionMap (Collaborators := sample.world) (Build.Configuration b)
           (Build.Arch b) (BuildFlavor (Collaborators := sample.world) b)
           (Build.EnabledBuildOptions b) = Ok sm
         /\ Forall2 (fun sp sp' =>
              Subpackage.Name sp' = Subpackage.Name sp
              /\ match Subpackage.Test sp with
                 | None => Subpackage.Test sp' = None
                 | Some tst =>
                     exists d tst',
                       yields (world := sample.world) 2 (Build.PipelineDirs b)
                              (Subpackage (Collaborators := sample.world) sm sp)
                              (config.Test.Pipeline tst) d
                       /\ Subpackage.Test sp' = Some tst'
                       /\ ImageConfiguration.Packages (config.Test.Environment tst')
                          = ImageConfiguration.Packages (config.Test.Environment tst)
                            ++ Subpackage.Name sp :: d.1
                 end)
              (Configuration.Subpackages (Build.Configuration b))
              (Configuration.Subpackages (Build.Configuration b')).
Proof.
  intros b. eexists. split; [vm_compute; reflexivity|]. split; [reflexivity|].
  apply (Build_Compile_subpackage_tests (world := sample.world) 2 b).
  vm_compute; reflexivity.
Defined.

(** X15: after [Build_Compile] a package without a test is still without
    one; otherwise the environment of its test has gained what the main test
    pipelines yield, compiled on their own, and after that the name of the
    package. *)
Theorem Build_Compile_main_test_env {world : Collaborators}
    (fuel : nat) (b b' : Build.t) :
  Build_Compile fuel b = Done b' ->
  let cfg := Build.Configuration b in
  match Configuration.Test cfg with
  | None => Configuration.Test (Build.Configuration b') = None
  | Some tst =>
      exists sm d tst',
        NewSubstitutionMap cfg (Build.Arch b) (BuildFlavor b)
                           (Build.EnabledBuildOptions b) = Ok sm
        /\ yields fuel (Build.PipelineDirs b) sm (config.Test.Pipeline tst) d
        /\ Configuration.Test (Build.Configuration b') = Some tst'
        /\ ImageConfiguration.Packages (config.Test.Environment tst')
           = ImageConfiguration.Packages (config.Test.Environment tst)
             ++ d.1 ++ [Package.Name (Configuration.Package cfg)]
  end.
Proof.
  intros E cfg. unfold Build_Compile in E. fold cfg in E.
  apply bind_Done in E as (sm & Hsm%pass_Done & E).
  apply bind_Done in E as ([c1 pipeline] & _ & E).
  apply bind_Done in E as ([c2 subpackages] & _ & E).
  apply bind_Done in E as (test & Htest & E). injection E as <-. simpl.
  destruct (Configuration.Test cfg) as [tst|]; [|by injection Htest as <-].
  apply bind_Done in Htest as ([tc testPipeline] & Hcompile%wrap_Done & Htest).
  injection Htest as <-.
  apply CompilePipelines_yields in Hcompile as (d & -> & Hd). simpl in Hd.
  exists sm, d. eexists. repeat split; try done.
  unfold ImageConfiguration.appendPackages, ImageConfiguration.Packages. simpl.
  by rewrite <- app_assoc.
Qed.

Lemma Build_Compile_main_test_env_witness :
  exists b',
    Build_Compile (world := sample.world) 2 sample.helloBuild = Done b'
    /\ Configuration.testPackages (Build.Configuration b') = Some ["bash"; "hello"]
    /\ exists sm d tst',
         NewSubstitutionMap (Collaborators := sample.world) sample.hello "x86_64" "gnu" []
         = Ok sm
         /\ yields (world := sample.world) 2 sample.dirs sm
                   [sample.step "check" ["bash"] "" []] d
         /\ Configuration.Test (Build.Configuration b') = Some tst'
         /\ ImageConfiguration.Packages (config.Test.Environment tst')
            = [] ++ d.1 ++ ["hello"].
Proof.
  eexists. split; [vm_compute; reflexivity|]. split; [reflexivity|].
  apply (Build_Compile_main_test_env (world := sample.world) 2 sample.helloBuild).
  vm_compute; reflexivity.
Defined.

(** X16: [Test_Compile] returns normally only for a package that has a test
    and whose subpackages all have one. *)
Theorem Test_Compile_needs_tests {world : Collaborators} (fuel : nat) (t t' : Test.t) :
  Test_Compile fuel t = Done t' ->
  is_Some (Configuration.Test (Test.Configuration t))
  /\ Forall (fun sp => is_Some (Subpackage.Test sp))
            (Configuration.Subpackages (Test.Configuration t)).
Proof.
  intros E. split.
  - unfold Test_Compile in E.
    apply bind_Done in E as (sm & _ & E).
    apply bind_Done in E as ([ignore1 pipeline] & _ & E).
    apply bind_Done in E as (cfgTest & HcfgTest%deref_Done & _). by rewrite HcfgTest.
  - apply Test_Compile_subpackage_test_env in E.
    induction E as [|sp sp' sps sps' (tst & _ & Htst & _) _ IH]; constructor; [|done].
    by rewrite Htst.
Qed.

Lemma Test_Compile_needs_tests_witness :
  is_Some (Configuration.Test (Test.Configuration sample.helloTest))
  /\ Forall (fun sp => is_Some (Subpackage.Test sp))
            (Configuration.Subpackages (Test.Configuration sample.helloTest)).
Proof.
  assert (E : exists t', Test_Compile (world := sample.world) 2 sample.helloTest = Done t')
    by (eexists; vm_compute; reflexivity).
  destruct E as [t' E].
  exact (Test_Compile_needs_tests (world := sample.world) 2 sample.helloTest t' E).
Defined.

(** X17: on a package without a test [Test_Compile] panics once the main
    pipelines have compiled: line 56 reads [cfg.Test.Pipeline] without the
    nil check that [Build_Compile] makes on line 158. *)
Theorem Test_Compile_panics_without_test {world : Collaborators}
    (fuel : nat) (t : Test.t) (sm : SubstitutionMap.t)
    (c : Compiled.t) (compiled : list Pipeline.t) :
  Configuration.Test (Test.Configuration t) = None ->
  NewSubstitutionMap (Test.Configuration t) (Test.Arch t) "gnu" [] = Ok sm ->
  CompilePipelines fuel (Compiled.fresh (Test.PipelineDirs t)) sm
                   (Configuration.Pipeline (Test.Configuration t)) = Done (c, compiled) ->
  Test_Compile fuel t = Panic.
Proof.
  intros Htest Hsm Hmain. unfold Test_Compile.
  rewrite Hsm. simpl. rewrite Hmain. simpl. by rewrite Htest.
Qed.

Lemma Test_Compile_panics_without_test_witness :
  Test_Compile (world := sample.world) 2 edge.untestedTest = Panic
  /\ exists b', Build_Compile (world := sample.world) 2 edge.untestedBuild = Done b'.
Proof.
  split; [|eexists; vm_compute; reflexivity].
  eapply (Test_Compile_panics_without_test (world := sample.world) 2 edge.untestedTest);
    [reflexivity | reflexivity | vm_compute; reflexivity].
Defined.

(** X18: the first package that [Test_Compile] appends to the environment of
    the main test is the package name given from outside when there is one,
    and the name of the configured package otherwise. *)
Theorem Test_Compile_appends_package_under_test {world : Collaborators}
    (fuel : nat) (t t' : Test.t) :
  Test_Compile fuel t = Done t' ->
  let cfg := Test.Configuration t in
  let name := if decide (Test.Package t <> "") then Test.Package t
              else Package.Name (Configuration.Package cfg) in
  exists tst tst' needs,
    Configuration.Test cfg = Some tst
    /\ Configuration.Test (Test.Configuration t') = Some tst'
    /\ ImageConfiguration.Packages (config.Test.Environment tst')
       = ImageConfiguration.Packages (config.Test.Environment tst) ++ name :: needs.
Proof.
  intros E cfg name.
  apply Test_Compile_main_test_env in E
    as (sm & tst & tst' & main & subs & _ & Htst & Htst' & _ & _ & Hpkgs).
  exists tst, tst', (main.1 ++ concat (fst <$> subs)). by repeat split.
Qed.

Lemma Test_Compile_appends_package_under_test_witness :
  exists t',
    Test_Compile (world := sample.world) 2 edge.renamedTest = Done t'
    /\ Configuration.testPackages (Test.Configuration t')
       = Some ["hello-full"; "bash"; "pkgconf"]
    /\ exists tst tst' needs,
         Configuration.Test sample.hello = Some tst
         /\ Configuration.Test (Test.Configuration t') = Some tst'
         /\ ImageConfiguration.Packages (config.Test.Environment tst')
            = ImageConfiguration.Packages (config.Test.Environment tst)
              ++ "hello-full" :: needs.
Proof.
  eexists. split; [vm_compute; reflexivity|]. split; [reflexivity|].
  apply (Test_Compile_appends_package_under_test (world := sample.world) 2 edge.renamedTest).
  vm_compute; reflexivity.
Defined.

(** X19: [Test_Compile] evaluates the build pipelines without accumulating
    from them: it leaves the package, the build environment and its packages,
    the receiver's architecture, lookup directories and package name, and the
    names and condition texts of the subpackages as they were. *)
Theorem Test_Compile_leaves_build_environment {world : Collaborators}
    (fuel : nat) (t t' : Test.t) :
  Test_Compile fuel t = Done t' ->
  let cfg := Test.Configuration t in
  let cfg' := Test.Configuration t' in
  Configuration.Environment cfg' = Configuration.Environment cfg
  /\ Configuration.Package cfg' = Configuration.Package cfg
  /\ Test.Arch t' = Test.Arch t
  /\ Test.PipelineDirs t' = Test.PipelineDirs t
  /\ Test.Package t' = Test.Package t
  /\ Subpackage.Name <$> Configuration.Subpackages cfg'
     = Subpackage.Name <$> Configuration.Subpackages cfg
  /\ Subpackage.If <$> Configuration.Subpackages cfg'
     = Subpackage.If <$> Configuration.Subpackages cfg.
Proof.
  intros E cfg cfg'.
  pose proof (Test_Compile_keeps_subpackage_If _ _ _ E) as Hifs.
  unfold Test_Compile in E. fold cfg in E.
  apply bind_Done in E as (sm & _ & E).
  apply bind_Done in E as ([ignore1 pipeline] & _ & E).
  apply bind_Done in E as (cfgTest & _ & E).
  apply bind_Done in E as ([c1 testPipeline] & _ & E).
  apply bind_Done in E as ([[c2 ignore2] subpackages] & Hsubs & E).
  subst cfg'. injection E as <-. simpl in *. repeat split; try done.
  clear Hifs.
  apply (rangeIdx_Forall2 _ (fun sp sp' => Subpackage.Name sp' = Subpackage.Name sp))
    in Hsubs.
  - induction Hsubs; simpl; [done|]. by f_equal.
  - intros i [c ignore] sp [c' ignore'] sp' Esp. unfold Test_Compile_subpackage in Esp.
    apply bind_Done in Esp as (spIf & _ & Esp).
    apply bind_Done in Esp as ([ig pl] & _ & Esp).
    apply bind_Done in Esp as (tst & _ & Esp).
    apply bind_Done in Esp as ([tc tp] & _ & Esp). by injection Esp as <- <- <-.
Qed.

Lemma Test_Compile_leaves_build_environment_witness :
  exists t',
    Test_Compile (world := sample.world) 2 sample.helloTest = Done t'
    /\ ImageConfiguration.Packages (Configuration.Environment (Test.Configuration t'))
       = ["build-base"]
    /\ Configuration.Package (Test.Configuration t') = Package.mk "hello".
Proof.
  eexists. split; [vm_compute; reflexivity|].
  edestruct (Test_Compile_leaves_build_environment (world := sample.world) 2
               sample.helloTest) as (-> & -> & _); [vm_compute; reflexivity|].
  split; reflexivity.
Defined.

Lemma pass_Failed {A} (r : result A) (e : error) : pass r = Failed e -> r = Err e.
Proof. destruct r; simpl; congruence. Qed.

(** X20: an error of [Build_Compile] is the error of [NewSubstitutionMap] as
    it is, or an error wrapped as compiling main pipelines, as mutating
    subpackage if, or as compiling a subpackage or its tests, the last two
    with the name of a subpackage of the configuration. *)
Theorem Build_Compile_error {world : Collaborators}
    (fuel : nat) (b : Build.t) (e : error) :
  Build_Compile fuel b = Failed e ->
  NewSubstitutionMap (Build.Configuration b) (Build.Arch b) (BuildFlavor b)
                     (Build.EnabledBuildOptions b) = Err e
  \/ exists e',
       e = Wrap CompilingMainPipelines e'
       \/ e = Wrap MutatingSubpackageIf e'
       \/ exists sp, sp ∈ Configuration.Subpackages (Build.Configuration b)
            /\ (e = Wrap (CompilingSubpackage (Subpackage.Name sp)) e'
                \/ e = Wrap (CompilingSubpackageTests (Subpackage.Name sp)) e').
Proof.
  unfold Build_Compile. intros E.
  apply bind_Failed in E as [E%pass_Failed|(sm & _ & E)]; [by left|]. right.
  apply bind_Failed in E as [(e' & _ & ->)%wrap_Failed|([c1 pipeline] & _ & E)]; [eauto|].
  apply bind_Failed in E as [E|([c2 subpackages] & _ & E)].
  - apply rangeIdx_Failed in E as (j & sp & cj & Hj & E).
    apply list_elem_of_lookup_2 in Hj. unfold Build_Compile_subpackage in E.
    apply bind_Failed in E as [E|(spIf & _ & E)].
    { unfold mutateSubpackageIf in E. case_decide; [|done].
      apply try_Failed in E as (e' & _ & ->). eauto. }
    apply bind_Failed in E as [(e' & _ & ->)%wrap_Failed|([c3 pl] & _ & E)].
    { exists e'. right. right. eauto. }
    destruct (Subpackage.Test sp); [|done].
    apply bind_Failed in E as [(e' & _ & ->)%wrap_Failed|([tc tp] & _ & E)]; [|done].
    exists e'. right. right. eauto.
  - apply bind_Failed in E as [E|(test & _ & E)]; [|done].
    destruct (Configuration.Test (Build.Configuration b)); [|done].
    apply bind_Failed in E as [(e' & _ & ->)%wrap_Failed|([tc tp] & _ & E)]; [eauto|done].
Qed.

Lemma Build_Compile_error_witness :
  Build_Compile (world := sample.world) 1 edge.broken
  = Failed (Wrap (CompilingSubpackage "hello-doc")
              (Wrap (CompilingPipelineAt 0)
                 (Wrap UnableToLoadPipeline (Foreign "open: file does not exist"))))
  /\ (NewSubstitutionMap (Collaborators := sample.world) (Build.Configuration edge.broken)
        (Build.Arch edge.broken) (BuildFlavor (Collaborators := sample.world) edge.broken)
        (Build.EnabledBuildOptions edge.broken)
      = Err (Wrap (CompilingSubpackage "hello-doc")
               (Wrap (CompilingPipelineAt 0)
                  (Wrap UnableToLoadPipeline (Foreign "open: file does not exist"))))
      \/ exists e',
           Wrap (CompilingSubpackage "hello-doc")
             (Wrap (CompilingPipelineAt 0)
                (Wrap UnableToLoadPipeline (Foreign "open: file does not exist")))
           = Wrap CompilingMainPipelines e'
           \/ Wrap (CompilingSubpackage "hello-doc")
                (Wrap (CompilingPipelineAt 0)
                   (Wrap UnableToLoadPipeline (Foreign "open: file does not exist")))
              = Wrap MutatingSubpackageIf e'
           \/ exists sp, sp ∈ Configuration.Subpackages (Build.Configuration edge.broken)
                /\ (Wrap (CompilingSubpackage "hello-doc")
                      (Wrap (CompilingPipelineAt 0)
                         (Wrap UnableToLoadPipeline (Foreign "open: file does not exist")))
                    = Wrap (CompilingSubpackage (Subpackage.Name sp)) e'
                    \/ Wrap (CompilingSubpackage "hello-doc")
                         (Wrap (CompilingPipelineAt 0)
                            (Wrap UnableToLoadPipeline (Foreign "open: file does not exist")))
                       = Wrap (CompilingSubpackageTests (Subpackage.Name sp)) e')).
Proof.
  split; [vm_compute; reflexivity|].
  apply (Build_Compile_error (world := sample.world) 1 edge.broken).
  vm_compute; reflexivity.
Defined.

Lemma compile_subpackages_in_step {world : Collaborators} fuel dirs sm sps :
  forall i c ignore c' ignore' tested cb built,
  rangeIdx (Test_Compile_subpackage fuel dirs sm) i (c, ignore) sps
  = Done (c', ignore', tested) ->
  rangeIdx (Build_Compile_subpackage fuel dirs sm) i ignore sps = Done (cb, built) ->
  ignore' = cb
  /\ Subpackage.Pipeline <$> tested = Subpackage.Pipeline <$> built.
Proof.
  induction sps as [|sp sps IH]; intros i c ignore c' ignore' tested cb built Et Eb.
  - injection Et as <- <- <-. by injection Eb as <- <-.
  - apply rangeIdx_cons_Done in Et as ([c1 ignore1] & spt & tested' & Et & Ets & ->).
    apply rangeIdx_cons_Done in Eb as (cb1 & spb & built' & Eb & Ebs & ->).
    unfold Test_Compile_subpackage in Et. unfold Build_Compile_subpackage in Eb.
    apply bind_Done in Et as (spIf & _ & Et).
    apply bind_Done in Et as ([ig pl] & Hpl & Et).
    apply bind_Done in Eb as (spIf' & _ & Eb).
    apply bind_Done in Eb as ([cb2 pl'] & Hpl' & Eb).
    rewrite Hpl in Hpl'. injection Hpl' as <- <-.
    apply bind_Done in Et as (tst & Htst%deref_Done & Et).
    apply bind_Done in Et as ([c2 tp] & _ & Et). injection Et as <- <- <-.
    rewrite Htst in Eb.
    apply bind_Done in Eb as ([tc tp'] & _ & Eb). injection Eb as <- <-.
    destruct (IH _ _ _ _ _ _ _ _ Ets Ebs) as [-> Hpls]. split; [done|].
    simpl. by f_equal.
Qed.

(** X21: a test compilation sees the build pipelines as a build compiles
    them: when both entry points return normally for the same configuration,
    architecture and lookup directories, under the flavor [gnu] and with no
    build options, they leave the same compiled main pipelines and the same
    compiled pipelines in every subpackage. *)
Theorem Test_Compile_compiles_build_pipelines_as_Build {world : Collaborators}
    (fuel : nat) (t t' : Test.t) (b b' : Build.t) :
  Build.Configuration b = Test.Configuration t ->
  Build.Arch b = Test.Arch t ->
  Build.PipelineDirs b = Test.PipelineDirs t ->
  BuildFlavor b = "gnu" ->
  Build.EnabledBuildOptions b = [] ->
  Test_Compile fuel t = Done t' ->
  Build_Compile fuel b = Done b' ->
  Configuration.Pipeline (Test.Configuration t')
  = Configuration.Pipeline (Build.Configuration b')
  /\ Subpackage.Pipeline <$> Configuration.Subpackages (Test.Configuration t')
     = Subpackage.Pipeline <$> Configuration.Subpackages (Build.Configuration b').
Proof.
  intros Hcfg Harch Hdirs Hflavor Hoptions Et Eb.
  unfold Test_Compile in Et. unfold Build_Compile in Eb.
  rewrite Hcfg, Harch, Hdirs, Hflavor, Hoptions in Eb.
  apply bind_Done in Et as (sm & Hsm & Et).
  apply bind_Done in Eb as (sm' & Hsm' & Eb).
  rewrite Hsm in Hsm'. injection Hsm' as <-.
  apply bind_Done in Et as ([ignore1 pipeline] & Hmain & Et).
  apply bind_Done in Eb as ([c1 pipeline'] & Hmain' & Eb).
  rewrite Hmain in Hmain'. injection Hmain' as <- <-.
  apply bind_Done in Et as (cfgTest & _ & Et).
  apply bind_Done in Et as ([c2 testPipeline] & _ & Et).
  apply bind_Done in Et as ([[c3 ignore3] tested] & Htested & Et).
  apply bind_Done in Eb as ([cb built] & Hbuilt & Eb).
  apply bind_Done in Eb as (test & _ & Eb).
  injection Et as <-. injection Eb as <-. simpl.
  destruct (compile_subpackages_in_step _ _ _ _ _ _ _ _ _ _ _ _ Htested Hbuilt) as [_ Hpls].
  by split.
Qed.

Lemma Test_Compile_compiles_build_pipelines_as_Build_witness :
  exists t' b',
    Test_Compile (world := sample.world) 2 sample.helloTest = Done t'
    /\ Build_Compile (world := sample.world) 2 sample.helloBuild = Done b'
    /\ Configuration.Pipeline (Test.Configuration t')
       = Configuration.Pipeline (Build.Configuration b')
    /\ Subpackage.Pipeline <$> Configuration.Subpackages (Test.Configuration t')
       = Subpackage.Pipeline <$> Configuration.Subpackages (Build.Configuration b').
Proof.
  eexists _, _. split; [vm_compute; reflexivity|]. split; [vm_compute; reflexivity|].
  apply (Test_Compile_compiles_build_pipelines_as_Build (world := sample.world) 2
           sample.helloTest _ sample.helloBuild);
    try reflexivity; vm_compute; reflexivity.
Defined.

(** ** The sample package *)

#[local] Existing Instance sample.world.

(** C1, on the sample package: the test pipeline of the subpackage yields the
    need [pkgconf]; [Build_Compile] appends the name of the subpackage and
    this need to the subpackage's test environment, [Test_Compile] appends the
    name alone. *)
Theorem Test_Compile_loses_subpackage_test_needs :
  exists sm t' b',
    NewSubstitutionMap sample.hello "x86_64" "gnu" [] = Ok sm
    /\ yields 2 sample.dirs (Subpackage sm sample.hello_dev)
              [sample.step "smoke" ["pkgconf"] "" []] (["pkgconf"], [])
    /\ Build_Compile 2 sample.helloBuild = Done b'
    /\ Configuration.subpackageTestPackages (Build.Configuration b')
       = [Some ["busybox"; "hello-dev"; "pkgconf"]]
    /\ Test_Compile 2 sample.helloTest = Done t'
    /\ Configuration.subpackageTestPackages (Test.Configuration t')
       = [Some ["busybox"; "hello-dev"]].
Proof.
  eexists _, _, _. split; [reflexivity|]. split; [eexists; vm_compute; reflexivity|].
  split; [vm_compute; reflexivity|]. split; [reflexivity|].
  split; [vm_compute; reflexivity|]. reflexivity.
Qed.

(** C3, on the sample package: the main test pipeline yields the need [bash]
    and the test pipeline of the subpackage the need [pkgconf]; after
    [Test_Compile] the environment of the main test has gained the name of
    the package and both needs. *)
Theorem Test_Compile_main_test_env_gains_subpackage_test_needs :
  exists sm t',
    NewSubstitutionMap sample.hello "x86_64" "gnu" [] = Ok sm
    /\ yields 2 sample.dirs sm
              [sample.step "check" ["bash"] "" []] (["bash"], [])
    /\ Configuration.testPackages sample.hello = Some []
    /\ Test_Compile 2 sample.helloTest = Done t'
    /\ Configuration.testPackages (Test.Configuration t')
       = Some ["hello"; "bash"; "pkgconf"].
Proof.
  eexists _, _. split; [reflexivity|]. split; [eexists; vm_compute; reflexivity|].
  split; [reflexivity|]. split; [vm_compute; reflexivity|]. reflexivity.
Qed.

(** C9, on the sample package: the condition of the subpackage substitutes to
    ['false'], yet after either compilation the subpackage still stores the
    text it had; a condition that fails to substitute aborts the compilation
    with the error of lines 65 and 127. *)
Theorem Compile_leaves_subpackage_If_unsubstituted :
  exists sm t' b',
    NewSubstitutionMap sample.hello "x86_64" "gnu" [] = Ok sm
    /\ mutateSubpackageIf
         (Subpackage sm sample.hello_dev) sample.hello_dev = Done "'false'"
    /\ Build_Compile 2 sample.helloBuild = Done b'
    /\ Configuration.subpackageIfs (Build.Configuration b') = ["${{options.static}}"]
    /\ Test_Compile 2 sample.helloTest = Done t'
    /\ Configuration.subpackageIfs (Test.Configuration t') = ["${{options.static}}"]
    /\ Build_Compile 2 sample.helloUndefined
       = Failed (Wrap MutatingSubpackageIf (Foreign "variable not defined")).
Proof.
  eexists _, _, _. split; [reflexivity|]. split; [vm_compute; reflexivity|].
  split; [vm_compute; reflexivity|]. split; [reflexivity|].
  split; [vm_compute; reflexivity|]. split; reflexivity.
Qed.

(** C5 as the spec words it fails: the template [fetch] is read from the first
    lookup directory and decodes, and the compilation of the step returns an
    error all the same, from the validation of its overrides. *)
Lemma compilePipeline_fails_with_template_loaded :
  let p := sample.usesStep "fetch" ∅ in
  let c := Compiled.fresh sample.dirs in
  found (Pipeline.Uses p) (Compiled.PipelineDirs c) sample.fetchYaml
  /\ (exists r, yaml_Unmarshal sample.fetchYaml p = Ok r)
  /\ compilePipeline 1 c sample.sm p
     = Failed (Wrap UnableToValidateWith (Foreign "required input for pipeline is missing")).
Proof.
  split; [|split].
  - left. exists [], "/work/pipelines", []. by repeat split.
  - by eexists.
  - reflexivity.
Qed.

Lemma loadUses_resolution_witness :
  loadUses (Compiled.fresh sample.dirs) (sample.usesStep "strip" ∅)
  = try (UnableToParsePipeline "strip")
        (yaml_Unmarshal sample.stripYaml
                        (sample.usesStep "strip" ∅)).
Proof.
  apply (loadUses_resolution (world := sample.world)
           (Compiled.fresh sample.dirs) (sample.usesStep "strip" ∅)); [done|].
  right. split; [|reflexivity].
  repeat constructor. by eexists.
Defined.

Lemma compilePipeline_validates_captured_With_witness :
  let c := Compiled.fresh sample.dirs in
  let p := sample.usesStep "patch" {[ "strip" := "1" ]} in
  exists r c' p',
    loadUses c p = Done r
    /\ Pipeline.With r !! "strip" = Some "9"
    /\ compilePipeline 1 c sample.sm p = Done (c', p')
    /\ Pipeline.With p' = ∅
    /\ exists with' validated mutated c1 q,
         validateWith (Pipeline.With p) (Pipeline.Inputs r) = (with', Ok validated)
         /\ MutateWith sample.sm validated = Ok mutated
         /\ Pipeline.With p' = cleanedWith with' mutated (Pipeline.Inputs r)
         /\ forall w,
              substituteStep c sample.sm (Pipeline.Uses p) (Pipeline.With p)
                             (Pipeline.set_With w r)
              = Done (c1, Pipeline.set_With w q, with', mutated).
Proof.
  intros c p. eexists _, _, _.
  split; [vm_compute; reflexivity|]. split; [by vm_compute|].
  split; [vm_compute; reflexivity|]. split; [reflexivity|].
  eapply (compilePipeline_validates_captured_With (world := sample.world) 0 c sample.sm p);
    vm_compute; reflexivity.
Defined.

Lemma compilePipeline_keeps_non_default_With_witness :
  let c := Compiled.fresh sample.dirs in
  let p := sample.usesStep "patch" {[ "strip" := "3" ]} in
  exists c' p',
    compilePipeline 1 c sample.sm p = Done (c', p')
    /\ Pipeline.With p' !! "strip" = Some "3"
    /\ Pipeline.Inputs p' = ∅
    /\ exists r c1 q with' mutated,
         loadUses c p = Done r
         /\ substituteStep c sample.sm (Pipeline.Uses p) (Pipeline.With p) r
            = Done (c1, q, with', mutated)
         /\ forall k v, Pipeline.With p' !! k = Some v ->
              v = index mutated (inputsKey k)
              /\ v <> index (Input.Default <$> Pipeline.Inputs r) k
              /\ forall input, Pipeline.Inputs r !! k = Some input ->
                   v <> Input.Default input.
Proof.
  intros c p. eexists _, _. split; [vm_compute; reflexivity|].
  split; [vm_compute; reflexivity|].
  eapply (compilePipeline_keeps_non_default_With (world := sample.world) 1 c sample.sm p).
  vm_compute; reflexivity.
Defined.

Lemma compilePipeline_nested_inherit_witness :
  let c := Compiled.fresh sample.dirs in
  let nested := Pipeline.mk "make" "" {[ "jobs" := "4" ]} "" [] ∅ None "" "" in
  let p := Pipeline.mk "build" "" ∅ "" [nested] ∅ None "" "" in
  exists c' nested',
    compilePipeline 2 c sample.sm p
    = Done (c', Pipeline.mk "build" "" ∅ "" [nested'] ∅ None "" "")
    /\ RightJoinMap (SubstitutionMap.Substitutions sample.sm) (Pipeline.With nested)
       !! "jobs" = Some "4"
    /\ RightJoinMap (SubstitutionMap.Substitutions sample.sm) (Pipeline.With nested)
       !! "${{package.name}}" = Some "hello".
Proof.
  intros c nested p. eexists _, _. split; [vm_compute; reflexivity|].
  edestruct (compilePipeline_nested_inherit (world := sample.world) 1 c sample.sm p)
    as (r & c1 & q & with' & mutated & Hload & Hsubst & _ & Hnested);
    [vm_compute; reflexivity|].
  injection Hload as <-. vm_compute in Hsubst. injection Hsubst as <- <- <- <-.
  destruct (Hnested 0 nested eq_refl) as (_ & Hown & Hinherited).
  split; [by apply Hown|]. by rewrite Hinherited.
Defined.

Lemma Build_Compile_shares_accumulator_witness :
  let b := sample.helloBuild in
  exists b',
    Build_Compile 2 b = Done b'
    /\ ImageConfiguration.Packages (Configuration.Environment (Build.Configuration b'))
       = ["build-base"; "make"; "gcc"; "scanelf"]
    /\ exists sm main subs,
         NewSubstitutionMap (Build.Configuration b) (Build.Arch b) (BuildFlavor b)
                            (Build.EnabledBuildOptions b) = Ok sm
         /\ yields 2 (Build.PipelineDirs b) sm
                   (Configuration.Pipeline (Build.Configuration b)) main
         /\ Forall2 (fun sp d => yields 2 (Build.PipelineDirs b) (Subpackage sm sp)
                                        (Subpackage.Pipeline sp) d)
                    (Configuration.Subpackages (Build.Configuration b)) subs
         /\ ImageConfiguration.Packages
              (Configuration.Environment (Build.Configuration b'))
            = ImageConfiguration.Packages
                (Configuration.Environment (Build.Configuration b))
              ++ main.1 ++ concat (fst <$> subs)
         /\ Build.externalRefs b' = main.2 ++ concat (snd <$> subs).
Proof.
  intros b. eexists. split; [vm_compute; reflexivity|]. split; [reflexivity|].
  apply (Build_Compile_shares_accumulator (world := sample.world) 2 b).
  vm_compute; reflexivity.
Defined.
